(** * pulp.repo_auth.repo_cert_utils: certificate bundles and the
      protected repository listing file

    A shallow embedding of [src/pulp/repo_auth/repo_cert_utils.py].
    Python strings are [string], a [dict] is an association list kept in
    iteration order with unique keys, exceptions are an error type and the
    file system, the log and the write lock are threaded explicitly. *)

From Stdlib Require Import Ascii String.
From stdpp Require Import gmap strings list fin_maps.

(** ** Strings: the [str] methods the module calls *)

Definition newline : ascii := "010"%char.
Definition comma : ascii := ","%char.
Definition slash : ascii := "/"%char.

(** [sep.join(l)] *)
Fixpoint str_join (sep : string) (l : list string) : string :=
  match l with
  | [] => ""
  | [x] => x
  | x :: rest => x +:+ sep +:+ str_join sep rest
  end.

(** [s.split(sep)] for a separator of one character, as a first field and
    the fields that follow it: the result of [split] is never empty. *)
Fixpoint split_fields (sep : ascii) (s : string) : string * list string :=
  match s with
  | EmptyString => (EmptyString, [])
  | String a s' =>
      let '(field, others) := split_fields sep s' in
      if Ascii.eqb a sep then (EmptyString, field :: others)
      else (String a field, others)
  end.

Definition str_split (sep : ascii) (s : string) : list string :=
  let '(field, others) := split_fields sep s in field :: others.

(** [s.startswith(c)] and [s.endswith(c)] for one character. *)
Definition startswith (c : ascii) (s : string) : bool :=
  match s with
  | String a _ => Ascii.eqb a c
  | EmptyString => false
  end.

Fixpoint endswith (c : ascii) (s : string) : bool :=
  match s with
  | EmptyString => false
  | String a EmptyString => Ascii.eqb a c
  | String _ s' => endswith c s'
  end.

(** Whether character [c] occurs in [s]. *)
Fixpoint has_char (c : ascii) (s : string) : bool :=
  match s with
  | EmptyString => false
  | String a s' => Ascii.eqb a c || has_char c s'
  end.

(** [needle in hay] on strings. *)
Fixpoint is_prefix (p s : string) : bool :=
  match p, s with
  | EmptyString, _ => true
  | String a p', String b s' => Ascii.eqb a b && is_prefix p' s'
  | String _ _, EmptyString => false
  end.

Fixpoint contains (needle hay : string) : bool :=
  is_prefix needle hay ||
  match hay with
  | EmptyString => false
  | String _ hay' => contains needle hay'
  end.

(** ** Dictionaries *)

(** A [dict] of strings in iteration order.  Assigning to a key that is
    present keeps its place, a new key goes last. *)
Definition dict := list (string * string).

Definition dict_keys (d : dict) : list string := d.*1.

Definition dict_wf (d : dict) : Prop := NoDup (dict_keys d).

Fixpoint dict_get (d : dict) (k : string) : option string :=
  match d with
  | [] => None
  | (k', v) :: rest => if decide (k' = k) then Some v else dict_get rest k
  end.

Fixpoint dict_set (d : dict) (k v : string) : dict :=
  match d with
  | [] => [(k, v)]
  | (k', v') :: rest =>
      if decide (k' = k) then (k, v) :: rest else (k', v') :: dict_set rest k v
  end.

(** [d.pop(k, None)] *)
Fixpoint dict_pop (d : dict) (k : string) : dict :=
  match d with
  | [] => []
  | (k', v') :: rest =>
      if decide (k' = k) then rest else (k', v') :: dict_pop rest k
  end.

(** ** Exceptions and outcomes *)

Inductive exn :=
| ValueError (msg : string)
| PulpException (msg : string)
| IOError (path : string)
| OSError (path : string)
| IndexError
| X509Error (msg : string).

Inductive outcome (A : Type) :=
| Return (a : A)
| Raise (e : exn).
Arguments Return {A} a.
Arguments Raise {A} e.

(** ** The world: file system, log and write lock *)

Inductive node :=
| File (contents : string)
| Dir.

(** [nodes] maps an absolute path to what is stored there.  The operating
    system decides which paths can be created or opened for writing:
    [refused] holds the paths where [open(p, 'w')] and [os.makedirs(p)]
    raise, [failing] the paths where the file is opened (and so created or
    truncated) but writing to it raises. *)
Record World := mkWorld {
  nodes : gmap string node;
  refused : gset string;
  failing : gset string;
  log : list string;
  write_lock : nat
}.

Definition set_nodes (f : gmap string node → gmap string node) (w : World) : World :=
  mkWorld (f (nodes w)) (refused w) (failing w) (log w) (write_lock w).

Definition LOG_info (msg : string) (w : World) : World :=
  mkWorld (nodes w) (refused w) (failing w) (log w ++ ["INFO " +:+ msg]) (write_lock w).

Definition LOG_exception (msg : string) (w : World) : World :=
  mkWorld (nodes w) (refused w) (failing w) (log w ++ ["ERROR " +:+ msg]) (write_lock w).

(** [WRITE_LOCK] is a re-entrant lock: the state is its depth. *)
Definition WRITE_LOCK_acquire (w : World) : World :=
  mkWorld (nodes w) (refused w) (failing w) (log w) (S (write_lock w)).

Definition WRITE_LOCK_release (w : World) : World :=
  mkWorld (nodes w) (refused w) (failing w) (log w) (pred (write_lock w)).

(** [os.path.exists(p)] *)
Definition os_path_exists (p : string) (w : World) : bool :=
  bool_decide (is_Some (nodes w !! p)).

(** [os.path.join(a, b)] of posixpath. *)
Definition os_path_join (a b : string) : string :=
  if startswith slash b then b
  else if bool_decide (a = "") || endswith slash a then a +:+ b
  else a +:+ "/" +:+ b.

(** [os.makedirs(p)] *)
Definition os_makedirs (p : string) (w : World) : World * outcome unit :=
  if bool_decide (p ∈ refused w) then (w, Raise (OSError p))
  else (set_nodes <[p := Dir]> w, Return tt).

(** [f = open(p, 'r'); contents = f.read(); f.close()] *)
Definition read_file (p : string) (w : World) : outcome string :=
  match nodes w !! p with
  | Some (File contents) => Return contents
  | Some Dir | None => Raise (IOError p)
  end.

(** [f = open(p, 'w'); f.write(value); f.close()] *)
Definition write_file (p value : string) (w : World) : World * outcome unit :=
  if bool_decide (p ∈ refused w) then (w, Raise (IOError p))
  else match nodes w !! p with
       | Some Dir => (w, Raise (IOError p))
       | _ =>
           if bool_decide (p ∈ failing w)
           then (set_nodes <[p := File ""]> w, Raise (IOError p))
           else (set_nodes <[p := File value]> w, Return tt)
       end.

(** When [write_file] succeeds: the path is not refused, is no directory
    and writing to it does not fail. *)
Definition writable (p : string) (w : World) : Prop :=
  (p ∉ refused w) ∧ (nodes w !! p ≠ Some Dir) ∧ (p ∉ failing w).

(** [os.remove(p)] *)
Definition os_remove (p : string) (w : World) : World * outcome unit :=
  match nodes w !! p with
  | Some (File _) =>
      if bool_decide (p ∈ refused w) then (w, Raise (OSError p))
      else (set_nodes (delete p) w, Return tt)
  | _ => (w, Raise (OSError p))
  end.

(** ** Configuration *)

(** [config.config.get('repos', ...)]: the two settings the module reads. *)
Record Config := mkConfig {
  cert_location : string;
  global_cert_location : string
}.

(** ** Constants *)

Definition VALID_BUNDLE_KEYS : list string := ["ca"; "cert"; "key"].

Definition GLOBAL_BUNDLE_PREFIX : string := "pulp-global-repo".

(** ** validate_cert_bundle *)

(** What a caller can pass as [bundle]: [None], a [dict], or an object of
    another type, given by the text [type(bundle)] prints as. *)
Inductive pyval :=
| PyNone
| PyDict (d : dict)
| PyObj (type_repr : string).

Definition missing_keys (d : dict) : list string :=
  filter (λ k, k ∉ dict_keys d) VALID_BUNDLE_KEYS.

Definition extra_keys (d : dict) : list string :=
  filter (λ k, k ∉ VALID_BUNDLE_KEYS) (dict_keys d).

Definition validate_cert_bundle (bundle : pyval) : outcome unit :=
  match bundle with
  | PyNone => Raise (ValueError "Bundle must be specified")
  | PyObj ty => Raise (ValueError ("Bundle must be a dict; found [" +:+ ty +:+ "]"))
  | PyDict d =>
      if Nat.ltb 0 (length (missing_keys d))
      then Raise (ValueError ("Missing items in cert bundle ["
                              +:+ str_join ", " (missing_keys d) +:+ "]"))
      else if Nat.ltb 0 (length (extra_keys d))
      then Raise (ValueError ("Unexpected items in cert bundle ["
                              +:+ str_join ", " (extra_keys d) +:+ "]"))
      else Return tt
  end.

(** ** Directories *)

Definition _repo_cert_directory (cfg : Config) (repo_id : string) : string :=
  os_path_join (cert_location cfg) repo_id.

Definition _global_cert_directory (cfg : Config) : string :=
  global_cert_location cfg.

(** The file of part [suffix] of the bundle [file_prefix] in [cert_dir]:
    [os.path.join(cert_dir, '%s.%s' % (file_prefix, suffix))]. *)
Definition bundle_filename (cert_dir file_prefix suffix : string) : string :=
  os_path_join cert_dir (file_prefix +:+ "." +:+ suffix).

(** ** _write_cert_bundle and the three writers *)

(** The loop [for key, value in bundle.items()] with its [try]/[except]. *)
Fixpoint write_items (file_prefix cert_dir : string) (items : dict)
    (cert_files : dict) (w : World) : World * outcome dict :=
  match items with
  | [] => (w, Return cert_files)
  | (key, value) :: rest =>
      let filename := bundle_filename cert_dir file_prefix key in
      let w1 := LOG_info ("Storing repo cert file [" +:+ filename +:+ "]") w in
      match write_file filename value w1 with
      | (w2, Return _) =>
          write_items file_prefix cert_dir rest (dict_set cert_files key filename) w2
      | (w2, Raise _) =>
          (LOG_exception ("Error storing certificate file [" +:+ filename +:+ "]") w2,
           Raise (PulpException ("Error storing certificate file [" +:+ filename +:+ "]")))
      end
  end.

(** [if not os.path.exists(cert_dir): os.makedirs(cert_dir)] *)
Definition ensure_directory (cert_dir : string) (w : World) : World * outcome unit :=
  if os_path_exists cert_dir w then (w, Return tt) else os_makedirs cert_dir w.

(** The body runs between [WRITE_LOCK.acquire()] and the [finally] that
    releases the lock on every way out. *)
Definition _write_cert_bundle (file_prefix cert_dir : string) (bundle : dict)
    (w : World) : World * outcome dict :=
  let w0 := WRITE_LOCK_acquire w in
  let '(w', r) :=
    match ensure_directory cert_dir w0 with
    | (w1, Raise e) => (w1, Raise e)
    | (w1, Return _) => write_items file_prefix cert_dir bundle [] w1
    end in
  (WRITE_LOCK_release w', r).

Definition write_feed_cert_bundle (cfg : Config) (repo_id : string) (bundle : dict)
    (w : World) : World * outcome dict :=
  _write_cert_bundle ("feed-" +:+ repo_id) (_repo_cert_directory cfg repo_id) bundle w.

Definition write_consumer_cert_bundle (cfg : Config) (repo_id : string) (bundle : dict)
    (w : World) : World * outcome dict :=
  _write_cert_bundle ("consumer-" +:+ repo_id) (_repo_cert_directory cfg repo_id) bundle w.

Definition write_global_repo_cert_bundle (cfg : Config) (bundle : dict)
    (w : World) : World * outcome dict :=
  _write_cert_bundle GLOBAL_BUNDLE_PREFIX (_global_cert_directory cfg) bundle w.

(** ** read_global_cert_bundle and delete_global_cert_bundle *)

Fixpoint read_pieces (cert_dir : string) (pieces : list string) (result : dict)
    (w : World) : outcome dict :=
  match pieces with
  | [] => Return result
  | suffix :: rest =>
      let filename := bundle_filename cert_dir GLOBAL_BUNDLE_PREFIX suffix in
      if os_path_exists filename w then
        match read_file filename w with
        | Return contents => read_pieces cert_dir rest (dict_set result suffix contents) w
        | Raise e => Raise e
        end
      else read_pieces cert_dir rest result w
  end.

(** [None] is the result when the global bundle does not exist. *)
Definition read_global_cert_bundle (cfg : Config) (pieces : list string)
    (w : World) : outcome (option dict) :=
  match read_pieces (_global_cert_directory cfg) pieces [] w with
  | Return result =>
      if Nat.eqb (length result) 0 then Return None else Return (Some result)
  | Raise e => Raise e
  end.

Fixpoint delete_suffixes (cert_dir : string) (suffixes : list string)
    (w : World) : World * outcome unit :=
  match suffixes with
  | [] => (w, Return tt)
  | suffix :: rest =>
      let filename := bundle_filename cert_dir GLOBAL_BUNDLE_PREFIX suffix in
      if os_path_exists filename w then
        let w1 := LOG_info ("Deleting global repo cert bundle file [" +:+ filename +:+ "]") w in
        match os_remove filename w1 with
        | (w2, Return _) => delete_suffixes cert_dir rest w2
        | (w2, Raise e) => (w2, Raise e)
        end
      else delete_suffixes cert_dir rest w
  end.

Definition delete_global_cert_bundle (cfg : Config) (w : World) : World * outcome unit :=
  delete_suffixes (_global_cert_directory cfg) VALID_BUNDLE_KEYS w.

(** ** validate_certificate and validate_certificate_pem *)

(** M2Crypto is not part of the repository: its [X509] API is a parameter.
    [X509.load_cert(file)] and [X509.load_cert_string(pem)] both hand the
    PEM text to the same parser, [load_cert_bio], the first after reading it
    from the file; [verify] returns the boolean the docstrings promise. *)
Section TrustVerifier.
Context {X509 PKey : Type}.
Variable load_cert_bio : string → outcome X509.
Variable get_pubkey : X509 → PKey.
Variable verify : X509 → PKey → bool.

Definition X509_load_cert (file : string) (w : World) : outcome X509 :=
  match read_file file w with
  | Return pem => load_cert_bio pem
  | Raise e => Raise e
  end.

Definition X509_load_cert_string (pem : string) : outcome X509 :=
  load_cert_bio pem.

Definition validate_certificate (cert_filename ca_filename : string)
    (w : World) : outcome bool :=
  match X509_load_cert ca_filename w with
  | Raise e => Raise e
  | Return ca =>
      match X509_load_cert cert_filename w with
      | Raise e => Raise e
      | Return cert => Return (verify cert (get_pubkey ca))
      end
  end.

Definition validate_certificate_pem (cert_pem ca_pem : string) : outcome bool :=
  match X509_load_cert_string ca_pem with
  | Raise e => Raise e
  | Return ca =>
      match X509_load_cert_string cert_pem with
      | Raise e => Raise e
      | Return cert => Return (verify cert (get_pubkey ca))
      end
  end.
End TrustVerifier.

(** ** ProtectedRepoListingFile *)

Record ProtectedRepoListingFile := mkListingFile {
  filename : string;
  listings : dict   (* mapping of relative path to repo ID *)
}.

(** [__init__]: [None] stands for a missing filename. *)
Definition ProtectedRepoListingFile_init (filename : option string)
    : outcome ProtectedRepoListingFile :=
  match filename with
  | None => Raise (ValueError
      "Filename must be specified when creating a ProtectedRepoListingFile")
  | Some f => Return (mkListingFile f [])
  end.

Definition delete (self : ProtectedRepoListingFile) (w : World) : World * outcome unit :=
  if os_path_exists (filename self) w then os_remove (filename self) w
  else (w, Return tt).

(** The loop of [load]: [pieces[1]] raises [IndexError] on a line with no
    comma, after the lines before it have been stored. *)
Fixpoint parse_lines (lines : list string) (listings : dict) : dict * outcome unit :=
  match lines with
  | [] => (listings, Return tt)
  | line :: rest =>
      match str_split comma line with
      | piece0 :: piece1 :: _ => parse_lines rest (dict_set listings piece0 piece1)
      | _ => (listings, Raise IndexError)
      end
  end.

Definition load (allow_missing : bool) (self : ProtectedRepoListingFile) (w : World)
    : ProtectedRepoListingFile * outcome unit :=
  if allow_missing && negb (os_path_exists (filename self) w) then (self, Return tt)
  else match read_file (filename self) w with
       | Raise e => (self, Raise e)
       | Return contents =>
           let '(l, r) := parse_lines (str_split newline contents) (listings self) in
           (mkListingFile (filename self) l, r)
       end.

(** The text [save] writes: for each [url] of [listings.keys()], in order,
    ['%s,%s' % (url, listings[url])].  A key of the dict is always found,
    so the lookup never falls to its default. *)
Definition saved_text (listings : dict) : string :=
  String.concat ""
    (map (λ url, url +:+ "," +:+ default "" (dict_get listings url)) (dict_keys listings)).

Definition save (self : ProtectedRepoListingFile) (w : World) : World * outcome unit :=
  write_file (filename self) (saved_text (listings self)) w.

Definition add_protected_repo_path (relative_path_url repo_id : string)
    (self : ProtectedRepoListingFile) : ProtectedRepoListingFile :=
  mkListingFile (filename self) (dict_set (listings self) relative_path_url repo_id).

Definition remove_protected_repo_path (relative_path_url : string)
    (self : ProtectedRepoListingFile) : ProtectedRepoListingFile :=
  mkListingFile (filename self) (dict_pop (listings self) relative_path_url).

(** ** delete_for_repo *)

(** Whether path [p] lies under the directory [d]. *)
Definition under (d p : string) : bool :=
  is_prefix (if endswith slash d then d else d +:+ "/") p.

(** [shutil.rmtree(d)] of a directory: [d] and every path under it go.
    It raises when [d] is no directory or is refused; what a removal that
    fails half way leaves behind is not modelled. *)
Definition shutil_rmtree (d : string) (w : World) : World * outcome unit :=
  match nodes w !! d with
  | Some Dir =>
      if bool_decide (d ∈ refused w) then (w, Raise (OSError d))
      else (set_nodes (filter (λ kv, kv.1 ≠ d ∧ under d kv.1 = false)) w, Return tt)
  | _ => (w, Raise (OSError d))
  end.

Definition delete_for_repo (cfg : Config) (repo_id : string) (w : World)
    : World * outcome unit :=
  let repo_dir := _repo_cert_directory cfg repo_id in
  if os_path_exists repo_dir w then
    shutil_rmtree repo_dir
      (LOG_info ("Deleting certificate bundles at [" +:+ repo_dir +:+ "]") w)
  else (w, Return tt).

(** ** Names used in the statements *)

(** The log line of an attempt to store part [key]. *)
Definition storing (cert_dir file_prefix key : string) : string :=
  "INFO Storing repo cert file [" +:+ bundle_filename cert_dir file_prefix key +:+ "]".

(** The text of the regular file at [p], if there is one. *)
Definition file_contents (p : string) (w : World) : option string :=
  match nodes w !! p with
  | Some (File contents) => Some contents
  | Some Dir | None => None
  end.

(** The file of part [suffix] of the global bundle. *)
Definition global_filename (cfg : Config) (suffix : string) : string :=
  bundle_filename (_global_cert_directory cfg) GLOBAL_BUNDLE_PREFIX suffix.

(** The directory step succeeds when the directory is there or may be made. *)
Definition dir_ready (cert_dir : string) (w : World) : Prop :=
  is_Some (nodes w !! cert_dir) ∨ cert_dir ∉ refused w.

Global Instance node_eq_dec : EqDecision node.
Proof. solve_decision. Defined.

Global Instance writable_dec (p : string) (w : World) : Decision (writable p w).
Proof. unfold writable. apply _. Defined.

Global Instance dir_ready_dec (cert_dir : string) (w : World) : Decision (dir_ready cert_dir w).
Proof. unfold dir_ready. apply _. Defined.

(** ** Sample data *)

Definition empty_world : World := mkWorld ∅ ∅ ∅ [] 0.

Definition sample_config : Config := mkConfig "/etc/pki/repos" "/etc/pki/global".

Definition sample_bundle : dict :=
  [("ca", "CA_PEM"); ("cert", "CERT_PEM"); ("key", "KEY_PEM")].

(** A world where the certificate file of the global bundle cannot be
    opened for writing. *)
Definition cert_refused_world : World :=
  mkWorld ∅ {["/etc/pki/global/pulp-global-repo.cert"]} ∅ [] 0.

(** A listing file with two entries. *)
Definition two_listings : ProtectedRepoListingFile :=
  mkListingFile "/etc/pulp/protected" [("/a", "repo1"); ("/b", "repo2")].

(** A toy certificate format for examples: the text is [subject:issuer],
    the public key of a certificate is its subject, and a certificate
    verifies against a key when its issuer is that key. *)
Definition toy_load_cert_bio (pem : string) : outcome (string * string) :=
  match str_split ":"%char pem with
  | [subject; issuer] => Return (subject, issuer)
  | _ => Raise (X509Error "not a certificate")
  end.

Definition toy_get_pubkey (cert : string * string) : string := cert.1.

Definition toy_verify (cert : string * string) (pkey : string) : bool :=
  bool_decide (cert.2 = pkey).

Definition toy_world : World :=
  mkWorld {[ "/ca.pem" := File "root:root"; "/cert.pem" := File "repo1:root" ]} ∅ ∅ [] 0.

(** * Facts *)

(** ** Strings *)

Lemma str_app_cons (a : ascii) (s t : string) : String a s +:+ t = String a (s +:+ t).
Proof. reflexivity. Qed.

Lemma str_app_nil_l (t : string) : "" +:+ t = t.
Proof. reflexivity. Qed.

Lemma str_app_nil_r (s : string) : s +:+ "" = s.
Proof. induction s as [|a s IH]; [done|]. by rewrite str_app_cons, IH. Qed.

Lemma str_app_assoc (s t u : string) : (s +:+ t) +:+ u = s +:+ (t +:+ u).
Proof. induction s as [|a s IH]; [done|]. by rewrite !str_app_cons, IH. Qed.

Lemma str_app_length (s t : string) :
  String.length (s +:+ t) = String.length s + String.length t.
Proof. induction s as [|a s IH]; [done|]. rewrite str_app_cons. simpl. by rewrite IH. Qed.

Lemma startswith_app (c : ascii) (s t : string) :
  s ≠ "" → startswith c (s +:+ t) = startswith c s.
Proof. by destruct s. Qed.

(** ** File names of a bundle *)

(** The part name is the last thing in the file name. *)
Lemma bundle_filename_app (cert_dir file_prefix suffix : string) :
  bundle_filename cert_dir file_prefix suffix
  = bundle_filename cert_dir file_prefix "" +:+ suffix.
Proof.
  unfold bundle_filename, os_path_join.
  assert (Hs : ∀ s, startswith slash (file_prefix +:+ "." +:+ s)
                    = startswith slash (file_prefix +:+ ".")).
  { intros s. destruct file_prefix; reflexivity. }
  rewrite (Hs suffix), (Hs ""), str_app_nil_r.
  destruct (startswith slash _).
  - by rewrite str_app_assoc.
  - destruct (_ || _); by rewrite !str_app_assoc.
Qed.

Lemma bundle_filename_inj (cert_dir file_prefix k1 k2 : string) :
  bundle_filename cert_dir file_prefix k1 = bundle_filename cert_dir file_prefix k2 →
  k1 = k2.
Proof.
  rewrite (bundle_filename_app _ _ k1), (bundle_filename_app _ _ k2).
  apply String.app_inj.
Qed.

(** A file of the global bundle is never the directory that holds it. *)
Lemma global_filename_not_dir (cert_dir suffix : string) :
  bundle_filename cert_dir GLOBAL_BUNDLE_PREFIX suffix ≠ cert_dir.
Proof.
  intros H. apply (f_equal String.length) in H. revert H.
  unfold bundle_filename, os_path_join. simpl startswith. cbv iota.
  destruct (_ || _); rewrite !str_app_length; simpl; lia.
Qed.

(** ** Dictionaries *)

Lemma dict_set_fresh (d : dict) (k v : string) :
  k ∉ dict_keys d → dict_set d k v = d ++ [(k, v)].
Proof.
  induction d as [|[k' v'] d IH]; simpl; [done|].
  intros Hk. apply not_elem_of_cons in Hk as [Hne Hk].
  destruct (decide (k' = k)); [congruence|]. by rewrite IH.
Qed.

Lemma dict_get_set (d : dict) (k v k' : string) :
  dict_get (dict_set d k v) k' = if decide (k = k') then Some v else dict_get d k'.
Proof.
  induction d as [|[k0 v0] d IH]; simpl.
  - destruct (decide (k = k')); done.
  - destruct (decide (k0 = k)) as [->|Hne]; simpl.
    + destruct (decide (k = k')); done.
    + destruct (decide (k0 = k')) as [->|?].
      * by destruct (decide (k = k')); [congruence|].
      * apply IH.
Qed.

Lemma dict_keys_set (d : dict) (k v : string) (k' : string) :
  k' ∈ dict_keys (dict_set d k v) ↔ k' = k ∨ k' ∈ dict_keys d.
Proof.
  unfold dict_keys. induction d as [|[k0 v0] d IH]; simpl.
  - rewrite list_elem_of_singleton. set_solver.
  - destruct (decide (k0 = k)) as [->|Hne]; simpl.
    + set_solver.
    + rewrite !elem_of_cons, IH. naive_solver.
Qed.

Lemma dict_get_None (d : dict) (k : string) :
  dict_get d k = None ↔ k ∉ dict_keys d.
Proof.
  unfold dict_keys. induction d as [|[k0 v0] d IH]; simpl.
  - split; [intros _; apply not_elem_of_nil | done].
  - destruct (decide (k0 = k)) as [->|Hne].
    + split; [done | intros H; exfalso; apply H; left].
    + rewrite IH, not_elem_of_cons. naive_solver.
Qed.

Lemma dict_get_elem_of (d : dict) (k v : string) :
  dict_wf d → (k, v) ∈ d ↔ dict_get d k = Some v.
Proof.
  unfold dict_wf, dict_keys. induction d as [|[k0 v0] d IH]; simpl.
  - intros _. split; [by intros ?%elem_of_nil | done].
  - intros [Hk0 Hnd]%NoDup_cons. rewrite elem_of_cons.
    destruct (decide (k0 = k)) as [->|Hne].
    + split.
      * intros [?|Hin]; [by simplify_eq|].
        exfalso. apply Hk0. apply list_elem_of_fmap. by exists (k, v).
      * intros ?; simplify_eq. by left.
    + rewrite <- (IH Hnd). naive_solver.
Qed.

Lemma dict_set_wf (d : dict) (k v : string) : dict_wf d → dict_wf (dict_set d k v).
Proof.
  unfold dict_wf, dict_keys. induction d as [|[k0 v0] d IH]; simpl.
  - intros _. apply NoDup_singleton.
  - intros [Hk0 Hnd]%NoDup_cons.
    destruct (decide (k0 = k)) as [->|Hne]; simpl.
    + by apply NoDup_cons.
    + apply NoDup_cons. split; [|by apply IH].
      intros Hin. apply (dict_keys_set d k v k0) in Hin. naive_solver.
Qed.

(** ** Writing files *)

Lemma write_file_writable (p value : string) (w : World) :
  writable p w →
  write_file p value w = (set_nodes <[p := File value]> w, Return tt).
Proof.
  intros (Hr & Hd & Hf). unfold write_file.
  rewrite (bool_decide_eq_false_2 _ Hr), (bool_decide_eq_false_2 _ Hf).
  destruct (nodes w !! p) as [[|]|]; done.
Qed.

(** A write that fails leaves every other path as it was. *)
Lemma write_file_not_writable (p value : string) (w : World) :
  ¬ writable p w →
  ∃ w', write_file p value w = (w', Raise (IOError p))
        ∧ (∀ q, q ≠ p → nodes w' !! q = nodes w !! q)
        ∧ refused w' = refused w ∧ failing w' = failing w
        ∧ log w' = log w ∧ write_lock w' = write_lock w.
Proof.
  intros Hnw. unfold write_file.
  destruct (bool_decide (p ∈ refused w)) eqn:Hr; [by eexists|].
  apply bool_decide_eq_false in Hr.
  destruct (nodes w !! p) as [[c|]|] eqn:Hn; try (by eexists).
  - destruct (bool_decide (p ∈ failing w)) eqn:Hf.
    + eexists; split; [done|]. simpl. split; [|done].
      intros q Hq. by rewrite lookup_insert_ne.
    + apply bool_decide_eq_false in Hf. exfalso. apply Hnw.
      unfold writable. by rewrite Hn.
  - destruct (bool_decide (p ∈ failing w)) eqn:Hf.
    + eexists; split; [done|]. simpl. split; [|done].
      intros q Hq. by rewrite lookup_insert_ne.
    + apply bool_decide_eq_false in Hf. exfalso. apply Hnw.
      unfold writable. by rewrite Hn.
Qed.

(** Writing one file keeps every path writable that was. *)
Lemma writable_after_write (p q value : string) (w : World) :
  writable q w → writable q (set_nodes <[p := File value]> w).
Proof.
  intros (Hr & Hd & Hf). repeat split; try done. simpl.
  destruct (decide (p = q)) as [->|Hne].
  - by rewrite lookup_insert_eq.
  - by rewrite lookup_insert_ne.
Qed.

Lemma writable_LOG_info (q msg : string) (w : World) :
  writable q (LOG_info msg w) ↔ writable q w.
Proof. done. Qed.

(** The loop over parts that can all be written: every part is stored under
    its file name, nothing else changes, and the mapping gets one entry a
    part. *)
Lemma write_items_writable (file_prefix cert_dir : string) (items : dict) :
  ∀ (cert_files : dict) (w : World),
    NoDup (dict_keys cert_files ++ dict_keys items) →
    (∀ k, k ∈ dict_keys items → writable (bundle_filename cert_dir file_prefix k) w) →
    ∃ w', write_items file_prefix cert_dir items cert_files w
          = (w', Return (cert_files ++
                         map (λ kv, (kv.1, bundle_filename cert_dir file_prefix kv.1)) items))
      ∧ (∀ k v, (k, v) ∈ items →
                nodes w' !! bundle_filename cert_dir file_prefix k = Some (File v))
      ∧ (∀ p, (∀ k, k ∈ dict_keys items → p ≠ bundle_filename cert_dir file_prefix k) →
              nodes w' !! p = nodes w !! p)
      ∧ refused w' = refused w ∧ failing w' = failing w
      ∧ log w' = log w ++ map (storing cert_dir file_prefix) (dict_keys items)
      ∧ write_lock w' = write_lock w.
Proof.
  unfold dict_keys.
  induction items as [|[key value] items IH]; intros cert_files w Hnd Hw; simpl.
  - eexists; split; [by rewrite app_nil_r|].
    repeat split; try done.
    + by intros k v ?%elem_of_nil.
    + by rewrite app_nil_r.
  - set (p := bundle_filename cert_dir file_prefix key).
    set (w1 := LOG_info _ w).
    assert (Hp : writable p w1) by (apply Hw, elem_of_cons; by left).
    rewrite (write_file_writable p value w1 Hp).
    simpl in Hnd. pose proof Hnd as (Hnd1 & Hdisj & [Hkey Hnd2]%NoDup_cons)%NoDup_app.
    assert (Hfresh : key ∉ cert_files.*1).
    { intros Hin. apply (Hdisj _ Hin), elem_of_cons. by left. }
    rewrite (dict_set_fresh _ _ _ Hfresh).
    destruct (IH (cert_files ++ [(key, p)]) (set_nodes <[p := File value]> w1))
      as (w' & Hrun & Hdone & Hframe & Hr & Hf & Hlog & Hlock).
    { rewrite fmap_app. simpl. by rewrite <- app_assoc. }
    { intros k Hk. apply writable_after_write. apply (Hw k), elem_of_cons. by right. }
    exists w'. split; [by rewrite Hrun, <- app_assoc|].
    split; [|split; [|split; [done|split; [done|split; [|done]]]]].
    + intros k v [Heq|Hin]%elem_of_cons.
      * simplify_eq. rewrite Hframe; [by apply lookup_insert_eq|].
        intros k Hk Heq. apply bundle_filename_inj in Heq as <-. done.
      * by apply Hdone.
    + intros q Hq. rewrite Hframe.
      * simpl. apply lookup_insert_ne. intros <-. apply (Hq key); [apply elem_of_cons; by left|done].
      * intros k Hk. apply Hq, elem_of_cons. by right.
    + rewrite Hlog. simpl. by rewrite <- app_assoc.
Qed.

Lemma write_items_app (file_prefix cert_dir : string) (items1 items2 : dict) :
  ∀ (cert_files : dict) (w : World),
    write_items file_prefix cert_dir (items1 ++ items2) cert_files w
    = match write_items file_prefix cert_dir items1 cert_files w with
      | (w1, Return files1) => write_items file_prefix cert_dir items2 files1 w1
      | (w1, Raise e) => (w1, Raise e)
      end.
Proof.
  induction items1 as [|[key value] items1 IH]; intros cert_files w; simpl; [done|].
  destruct (write_file _ value _) as [w2 [[]|e]]; [apply IH | done].
Qed.

(** ** The directory step *)

Lemma ensure_directory_acquire (cert_dir : string) (w : World) :
  ensure_directory cert_dir (WRITE_LOCK_acquire w)
  = ((WRITE_LOCK_acquire (ensure_directory cert_dir w).1), (ensure_directory cert_dir w).2).
Proof.
  unfold ensure_directory, os_path_exists, os_makedirs. simpl.
  destruct (bool_decide (is_Some _)); [done|].
  by destruct (bool_decide (cert_dir ∈ refused w)).
Qed.

Lemma ensure_directory_ready (cert_dir : string) (w : World) :
  dir_ready cert_dir w →
  ∃ wd, ensure_directory cert_dir w = (wd, Return tt)
        ∧ (∀ p, p ≠ cert_dir → nodes wd !! p = nodes w !! p)
        ∧ refused wd = refused w ∧ failing wd = failing w
        ∧ log wd = log w ∧ write_lock wd = write_lock w.
Proof.
  intros Hready. unfold ensure_directory, os_path_exists, os_makedirs.
  destruct (bool_decide (is_Some (nodes w !! cert_dir))) eqn:Hex; [by eexists|].
  apply bool_decide_eq_false in Hex. destruct Hready as [?|Hr]; [done|].
  rewrite (bool_decide_eq_false_2 _ Hr). eexists; split; [done|].
  simpl. split; [|done]. intros p Hp. by rewrite lookup_insert_ne.
Qed.

Lemma writable_after_directory (cert_dir p : string) (w wd : World) :
  ensure_directory cert_dir w = (wd, Return tt) →
  p ≠ cert_dir → writable p w → writable p wd.
Proof.
  unfold ensure_directory, os_path_exists, os_makedirs.
  destruct (bool_decide (is_Some _)); [by intros [= <-]|].
  destruct (bool_decide (cert_dir ∈ refused w)); [done|].
  intros [= <-] Hne (Hr & Hd & Hf). repeat split; try done.
  simpl. by rewrite lookup_insert_ne.
Qed.

(** ** Writing a bundle *)

Lemma writable_acquire (p : string) (w : World) :
  writable p (WRITE_LOCK_acquire w) ↔ writable p w.
Proof. done. Qed.

(** When the directory can be ensured and every part's file can be
    written, the call succeeds and stores each part. *)
Lemma write_cert_bundle_writable
    (file_prefix cert_dir : string) (bundle : dict) (w : World) :
  dict_wf bundle →
  dir_ready cert_dir w →
  (∀ k, k ∈ dict_keys bundle →
        writable (bundle_filename cert_dir file_prefix k) w
        ∧ bundle_filename cert_dir file_prefix k ≠ cert_dir) →
  ∃ w', _write_cert_bundle file_prefix cert_dir bundle w
        = (w', Return (map (λ kv, (kv.1, bundle_filename cert_dir file_prefix kv.1)) bundle))
    ∧ (∀ k v, (k, v) ∈ bundle →
              nodes w' !! bundle_filename cert_dir file_prefix k = Some (File v))
    ∧ (∀ p, p ≠ cert_dir →
            (∀ k, k ∈ dict_keys bundle → p ≠ bundle_filename cert_dir file_prefix k) →
            nodes w' !! p = nodes w !! p)
    ∧ write_lock w' = write_lock w.
Proof.
  intros Hwf Hready Hw.
  destruct (ensure_directory_ready _ _ Hready)
    as (wd & Hdir & Hdframe & Hdr & Hdf & Hdlog & Hdlock).
  unfold _write_cert_bundle. rewrite ensure_directory_acquire, Hdir. simpl.
  destruct (write_items_writable file_prefix cert_dir bundle [] (WRITE_LOCK_acquire wd))
    as (w' & Hrun & Hdone & Hframe & Hr & Hf & Hlog & Hlock).
  { done. }
  { intros k Hk. apply writable_acquire.
    destruct (Hw k Hk) as [Hwk Hne]. by apply (writable_after_directory cert_dir _ w). }
  rewrite Hrun. eexists; split; [done|]. simpl.
  split; [done|]. split.
  - intros p Hp Hother. rewrite (Hframe p Hother). simpl. by apply Hdframe.
  - rewrite Hlock. simpl. by rewrite Hdlock.
Qed.

(** C9: [_write_cert_bundle], and with it the feed, consumer and global
    writers that only choose its prefix and directory, never looks at the
    key set of the bundle.  For every dict, when the directory can be
    ensured and each part's file can be written, the call returns without
    error the mapping of exactly the bundle's keys, each to its file
    [<prefix>.<key>], that file holds the part's value, and no other path
    is touched: a bundle with missing or extra parts gives fewer or more
    files. *)
Theorem write_cert_bundle_any_key_set
    (file_prefix cert_dir : string) (bundle : dict) (w : World) :
  dict_wf bundle →
  dir_ready cert_dir w →
  (∀ k, k ∈ dict_keys bundle →
        writable (bundle_filename cert_dir file_prefix k) w
        ∧ bundle_filename cert_dir file_prefix k ≠ cert_dir) →
  ∃ w', _write_cert_bundle file_prefix cert_dir bundle w
        = (w', Return (map (λ kv, (kv.1, bundle_filename cert_dir file_prefix kv.1)) bundle))
    ∧ (∀ k v, (k, v) ∈ bundle →
              nodes w' !! bundle_filename cert_dir file_prefix k = Some (File v))
    ∧ (∀ p, p ≠ cert_dir →
            (∀ k, k ∈ dict_keys bundle → p ≠ bundle_filename cert_dir file_prefix k) →
            nodes w' !! p = nodes w !! p)
    ∧ write_lock w' = write_lock w.
Proof. apply write_cert_bundle_writable. Qed.

(** C2, as the code has it: when the file of one part cannot be written,
    after the parts before it were, the call raises [PulpException] with a
    message that names that file; the parts before it stay on disk with
    their values, no part after it is attempted (the log ends with the
    failed attempt and their files are as they were), and the lock is back
    at its depth.  The outcome is the exception: no mapping is returned. *)
Theorem write_cert_bundle_failure_aborts
    (file_prefix cert_dir : string) (written : dict) (key value : string)
    (rest : dict) (w wd : World) :
  dict_wf (written ++ (key, value) :: rest) →
  ensure_directory cert_dir w = (wd, Return tt) →
  (∀ k, k ∈ dict_keys written → writable (bundle_filename cert_dir file_prefix k) wd) →
  ¬ writable (bundle_filename cert_dir file_prefix key) wd →
  ∃ w', _write_cert_bundle file_prefix cert_dir (written ++ (key, value) :: rest) w
        = (w', Raise (PulpException ("Error storing certificate file ["
                       +:+ bundle_filename cert_dir file_prefix key +:+ "]")))
    ∧ (∀ k v, (k, v) ∈ written →
              nodes w' !! bundle_filename cert_dir file_prefix k = Some (File v))
    ∧ (∀ k, k ∈ dict_keys rest →
            nodes w' !! bundle_filename cert_dir file_prefix k
            = nodes wd !! bundle_filename cert_dir file_prefix k)
    ∧ log w' = log w
               ++ map (storing cert_dir file_prefix) (dict_keys written ++ [key])
               ++ ["ERROR Error storing certificate file ["
                   +:+ bundle_filename cert_dir file_prefix key +:+ "]"]
    ∧ write_lock w' = write_lock w.
Proof.
  intros Hwf Hdir Hw Hbad.
  assert (Hdlog : log wd = log w ∧ write_lock wd = write_lock w).
  { revert Hdir. unfold ensure_directory, os_makedirs.
    destruct (os_path_exists _ _); [by intros [= <-]|].
    destruct (bool_decide _); [done|]. by intros [= <-]. }
  destruct Hdlog as [Hdlog Hdlock].
  unfold dict_wf, dict_keys in Hwf. rewrite fmap_app in Hwf. simpl in Hwf.
  apply NoDup_app in Hwf as (Hnd1 & Hdisj & [Hkey Hnd2]%NoDup_cons).
  unfold _write_cert_bundle. rewrite ensure_directory_acquire, Hdir. simpl.
  rewrite write_items_app.
  destruct (write_items_writable file_prefix cert_dir written [] (WRITE_LOCK_acquire wd))
    as (w1 & Hrun & Hdone & Hframe & Hr & Hf & Hlog & Hlock); [done..|].
  rewrite Hrun. simpl.
  set (p := bundle_filename cert_dir file_prefix key).
  assert (Hp : nodes w1 !! p = nodes wd !! p).
  { rewrite Hframe; [done|]. intros k Hk Heq.
    apply bundle_filename_inj in Heq as <-. apply (Hdisj key Hk), elem_of_cons. by left. }
  destruct (write_file_not_writable p value (LOG_info ("Storing repo cert file [" +:+ p +:+ "]") w1))
    as (w2 & Hfail & Hframe2 & Hr2 & Hf2 & Hlog2 & Hlock2).
  { intros (Hr' & Hd' & Hf'). apply Hbad.
    change (p ∉ refused w1) in Hr'. change (nodes w1 !! p ≠ Some Dir) in Hd'.
    change (p ∉ failing w1) in Hf'.
    rewrite Hr in Hr'. rewrite Hp in Hd'. rewrite Hf in Hf'. done. }
  rewrite Hfail. eexists; split; [done|]. simpl.
  split; [|split; [|split]].
  - intros k v Hin. rewrite Hframe2; [by apply Hdone|].
    intros Heq. apply bundle_filename_inj in Heq as ->.
    apply (Hdisj key); [|apply elem_of_cons; by left].
    apply list_elem_of_fmap. by exists (key, v).
  - intros k Hk. rewrite Hframe2.
    + simpl. rewrite Hframe; [done|]. intros k' Hk' Heq.
      apply bundle_filename_inj in Heq as <-.
      apply (Hdisj k Hk'), elem_of_cons. by right.
    + intros Heq. apply bundle_filename_inj in Heq as ->. done.
  - rewrite Hlog2. simpl. rewrite Hlog. simpl. rewrite Hdlog.
    rewrite map_app. simpl. by rewrite <- !app_assoc.
  - rewrite Hlock2. simpl. rewrite Hlock. simpl. by rewrite Hdlock.
Qed.

Lemma write_cert_bundle_any_key_set_witness :
  ∃ w', _write_cert_bundle "feed-repo1" "/etc/pki/repos/repo1"
          [("ca", "CA_PEM"); ("extra", "W")] empty_world
        = (w', Return [("ca", "/etc/pki/repos/repo1/feed-repo1.ca");
                       ("extra", "/etc/pki/repos/repo1/feed-repo1.extra")])
    ∧ (∀ k v, (k, v) ∈ [("ca", "CA_PEM"); ("extra", "W")] →
              nodes w' !! bundle_filename "/etc/pki/repos/repo1" "feed-repo1" k = Some (File v))
    ∧ (∀ p, p ≠ "/etc/pki/repos/repo1" →
            (∀ k, k ∈ dict_keys [("ca", "CA_PEM"); ("extra", "W")] →
                  p ≠ bundle_filename "/etc/pki/repos/repo1" "feed-repo1" k) →
            nodes w' !! p = nodes empty_world !! p)
    ∧ write_lock w' = write_lock empty_world.
Proof.
  apply (write_cert_bundle_any_key_set "feed-repo1" "/etc/pki/repos/repo1"
           [("ca", "CA_PEM"); ("extra", "W")] empty_world).
  - apply (bool_decide_unpack _). vm_compute. exact I.
  - apply (bool_decide_unpack _). vm_compute. exact I.
  - apply Forall_forall. apply (bool_decide_unpack _). vm_compute. exact I.
Defined.

(** C2, the claim as the spec states it, fails: the write of [cert] is
    refused after [ca] was stored, and what the caller gets is the
    exception, not the mapping of the part written before the failure. *)
Lemma write_failure_returns_no_mapping :
  (write_global_repo_cert_bundle sample_config sample_bundle cert_refused_world).2
  = Raise (PulpException
      "Error storing certificate file [/etc/pki/global/pulp-global-repo.cert]")
  ∧ nodes (write_global_repo_cert_bundle sample_config sample_bundle cert_refused_world).1
      !! "/etc/pki/global/pulp-global-repo.ca" = Some (File "CA_PEM")
  ∧ (write_global_repo_cert_bundle sample_config sample_bundle cert_refused_world).2
    ≠ Return [("ca", "/etc/pki/global/pulp-global-repo.ca")].
Proof.
  split; [by vm_compute|]. split; [by vm_compute|].
  vm_compute. discriminate.
Qed.

Lemma write_cert_bundle_failure_aborts_witness :
  ∃ w', _write_cert_bundle GLOBAL_BUNDLE_PREFIX "/etc/pki/global"
          ([("ca", "CA_PEM")] ++ ("cert", "CERT_PEM") :: [("key", "KEY_PEM")])
          cert_refused_world
        = (w', Raise (PulpException ("Error storing certificate file ["
             +:+ bundle_filename "/etc/pki/global" GLOBAL_BUNDLE_PREFIX "cert" +:+ "]")))
    ∧ (∀ k v, (k, v) ∈ [("ca", "CA_PEM")] →
              nodes w' !! bundle_filename "/etc/pki/global" GLOBAL_BUNDLE_PREFIX k
              = Some (File v))
    ∧ (∀ k, k ∈ dict_keys [("key", "KEY_PEM")] →
            nodes w' !! bundle_filename "/etc/pki/global" GLOBAL_BUNDLE_PREFIX k
            = nodes (set_nodes <["/etc/pki/global" := Dir]> cert_refused_world)
                !! bundle_filename "/etc/pki/global" GLOBAL_BUNDLE_PREFIX k)
    ∧ log w' = log cert_refused_world
               ++ map (storing "/etc/pki/global" GLOBAL_BUNDLE_PREFIX)
                      (dict_keys [("ca", "CA_PEM")] ++ ["cert"])
               ++ ["ERROR Error storing certificate file ["
                   +:+ bundle_filename "/etc/pki/global" GLOBAL_BUNDLE_PREFIX "cert" +:+ "]"]
    ∧ write_lock w' = write_lock cert_refused_world.
Proof.
  apply (write_cert_bundle_failure_aborts GLOBAL_BUNDLE_PREFIX "/etc/pki/global"
           [("ca", "CA_PEM")] "cert" "CERT_PEM" [("key", "KEY_PEM")] cert_refused_world
           (set_nodes <["/etc/pki/global" := Dir]> cert_refused_world)).
  - apply (bool_decide_unpack _). vm_compute. exact I.
  - vm_compute. reflexivity.
  - apply Forall_forall. apply (bool_decide_unpack _). vm_compute. exact I.
  - apply (bool_decide_unpack _). vm_compute. exact I.
Defined.

(** ** Reading the global bundle *)

Lemma os_path_exists_true (p : string) (w : World) (n : node) :
  nodes w !! p = Some n → os_path_exists p w = true.
Proof. intros H. unfold os_path_exists. apply bool_decide_eq_true. by rewrite H. Qed.

Lemma os_path_exists_false (p : string) (w : World) :
  nodes w !! p = None → os_path_exists p w = false.
Proof.
  intros H. unfold os_path_exists. apply bool_decide_eq_false. rewrite H.
  by intros [? ?].
Qed.

(** Closes a goal whose hypotheses on membership in [x :: l] and in [l]
    contradict each other. *)
Ltac elem_of_cons_absurd :=
  exfalso;
  match goal with
  | H : ?s ∉ ?x :: ?l, H' : ?s ∈ ?l |- _ => apply H, elem_of_cons; by right
  | H : ?s ∉ ?s :: ?l |- _ => apply H, elem_of_cons; by left
  | H : ?s ∈ ?x :: ?l, H1 : ?s ∉ ?l, H2 : ?x ≠ ?s |- _ =>
      apply elem_of_cons in H as [?|?]; [by subst | done]
  end.

(** The loop of [read_global_cert_bundle] when no requested path is a
    directory: a part with a file is set to the file's text, a part with no
    file leaves [result] as it is. *)
Lemma read_pieces_files (cert_dir : string) (pieces : list string) :
  ∀ (result : dict) (w : World),
    (∀ s, s ∈ pieces →
          nodes w !! bundle_filename cert_dir GLOBAL_BUNDLE_PREFIX s ≠ Some Dir) →
    ∃ r, read_pieces cert_dir pieces result w = Return r
      ∧ (∀ s, dict_get r s
              = if decide (s ∈ pieces)
                then match file_contents (bundle_filename cert_dir GLOBAL_BUNDLE_PREFIX s) w with
                     | Some contents => Some contents
                     | None => dict_get result s
                     end
                else dict_get result s)
      ∧ (r = [] ↔ result = [] ∧
                  ∀ s, s ∈ pieces →
                       nodes w !! bundle_filename cert_dir GLOBAL_BUNDLE_PREFIX s = None).
Proof.
  induction pieces as [|suffix rest IH]; intros result w Hnodir; simpl.
  - exists result. split; [done|]. split; [done|].
    split; [intros ->; split; [done|by intros s ?%elem_of_nil] | by intros [-> _]].
  - set (p := bundle_filename cert_dir GLOBAL_BUNDLE_PREFIX suffix).
    assert (Hrest : ∀ s, s ∈ rest →
              nodes w !! bundle_filename cert_dir GLOBAL_BUNDLE_PREFIX s ≠ Some Dir).
    { intros s Hs. apply Hnodir, elem_of_cons. by right. }
    destruct (nodes w !! p) as [[contents|]|] eqn:Hp.
    + rewrite (os_path_exists_true _ _ _ Hp). unfold read_file. rewrite Hp.
      destruct (IH (dict_set result suffix contents) w Hrest) as (r & Hrun & Hget & Hnil).
      exists r. split; [done|]. split.
      * intros s. rewrite Hget, dict_get_set. unfold file_contents.
        destruct (decide (s ∈ rest)) as [Hin|Hnin],
                 (decide (s ∈ suffix :: rest)) as [Hin'|Hnin'],
                 (decide (suffix = s)) as [<-|Hne];
          try elem_of_cons_absurd; try done; by (fold p; rewrite Hp).
      * rewrite Hnil. split.
        -- intros [Hset _]. by destruct result as [|[? ?] ?]; simpl in Hset;
             [|destruct (decide _)].
        -- intros [_ Hnone]. specialize (Hnone suffix). fold p in Hnone.
           rewrite Hp in Hnone. exfalso. by apply (Some_ne_None (File contents)), Hnone, elem_of_cons; left.
    + exfalso. apply (Hnodir suffix); [apply elem_of_cons; by left | done].
    + rewrite (os_path_exists_false _ _ Hp).
      destruct (IH result w Hrest) as (r & Hrun & Hget & Hnil).
      exists r. split; [done|]. split.
      * intros s. rewrite Hget. unfold file_contents.
        destruct (decide (s ∈ rest)) as [Hin|Hnin],
                 (decide (s ∈ suffix :: rest)) as [Hin'|Hnin'],
                 (decide (suffix = s)) as [<-|Hne];
          try elem_of_cons_absurd; try done; by (fold p; rewrite Hp).
      * rewrite Hnil. split.
        -- intros [-> Hnone]. split; [done|].
           intros s [->|Hs]%elem_of_cons; [done|by apply Hnone].
        -- intros [-> Hnone]. split; [done|].
           intros s Hs. apply Hnone, elem_of_cons. by right.
Qed.

(** C3: for every list of requested parts (none of whose paths is a
    directory, which [open] would refuse), [read_global_cert_bundle] returns
    without error; a requested part whose file does not exist is left out
    of the mapping and a part with a file maps to the file's text; and when
    no requested part has a file the result is [None], never the empty
    mapping. *)
Theorem read_global_omits_missing_parts (cfg : Config) (pieces : list string) (w : World) :
  (∀ s, s ∈ pieces → nodes w !! global_filename cfg s ≠ Some Dir) →
  ∃ r, read_global_cert_bundle cfg pieces w = Return r
    ∧ (r = None ↔ ∀ s, s ∈ pieces → nodes w !! global_filename cfg s = None)
    ∧ r ≠ Some []
    ∧ (∀ d, r = Some d →
            ∀ s, dict_get d s
                 = if decide (s ∈ pieces) then file_contents (global_filename cfg s) w
                   else None).
Proof.
  intros Hnodir. unfold read_global_cert_bundle.
  destruct (read_pieces_files (_global_cert_directory cfg) pieces [] w Hnodir)
    as (d & Hrun & Hget & Hnil).
  rewrite Hrun. destruct d as [|kv d]; simpl.
  - exists None. split; [done|]. split; [|done].
    split; [intros _; by apply Hnil | done].
  - exists (Some (kv :: d)). split; [done|]. split; [|split; [done|]].
    + split; [done|]. intros Hnone. exfalso.
      assert (kv :: d = []) as Hd by (by apply Hnil). done.
    + intros d' [= <-] s. rewrite Hget. unfold global_filename.
      destruct (decide (s ∈ pieces)); [|done].
      by destruct (file_contents _ w).
Qed.

(** ** Round trip of the global bundle *)

Lemma dict_get_valid_key (bundle : dict) (k : string) :
  (∀ k', k' ∈ dict_keys bundle ↔ k' ∈ VALID_BUNDLE_KEYS) →
  k ∈ VALID_BUNDLE_KEYS → ∃ v, dict_get bundle k = Some v.
Proof.
  intros Hkeys Hk. destruct (dict_get bundle k) as [v|] eqn:Hget; [by exists v|].
  apply dict_get_None in Hget. exfalso. by apply Hget, Hkeys.
Qed.

(** C1: for every bundle whose keys are exactly ca, cert and key, written
    as the global bundle into a world where the directory can be ensured
    and the three files can be written, the write returns and reading the
    global bundle back gives exactly the text of every part; asking for
    ["ca"] alone gives the mapping with the ca part only. *)
Theorem global_bundle_round_trip (cfg : Config) (bundle : dict) (w : World) :
  dict_wf bundle →
  (∀ k, k ∈ dict_keys bundle ↔ k ∈ VALID_BUNDLE_KEYS) →
  dir_ready (_global_cert_directory cfg) w →
  (∀ k, k ∈ VALID_BUNDLE_KEYS → writable (global_filename cfg k) w) →
  ∃ w' cert_files ca_pem cert_pem key_pem,
    write_global_repo_cert_bundle cfg bundle w = (w', Return cert_files)
    ∧ dict_get bundle "ca" = Some ca_pem
    ∧ dict_get bundle "cert" = Some cert_pem
    ∧ dict_get bundle "key" = Some key_pem
    ∧ read_global_cert_bundle cfg VALID_BUNDLE_KEYS w'
      = Return (Some [("ca", ca_pem); ("cert", cert_pem); ("key", key_pem)])
    ∧ read_global_cert_bundle cfg ["ca"] w' = Return (Some [("ca", ca_pem)]).
Proof.
  intros Hwf Hkeys Hready Hw.
  destruct (write_cert_bundle_writable GLOBAL_BUNDLE_PREFIX (_global_cert_directory cfg)
              bundle w Hwf Hready) as (w' & Hrun & Hdone & _).
  { intros k Hk. split; [by apply Hw, Hkeys | apply global_filename_not_dir]. }
  destruct (dict_get_valid_key bundle "ca" Hkeys) as [ca_pem Hca];
    [apply (bool_decide_unpack _); by vm_compute|].
  destruct (dict_get_valid_key bundle "cert" Hkeys) as [cert_pem Hcert];
    [apply (bool_decide_unpack _); by vm_compute|].
  destruct (dict_get_valid_key bundle "key" Hkeys) as [key_pem Hkey];
    [apply (bool_decide_unpack _); by vm_compute|].
  exists w', (map (λ kv, (kv.1, bundle_filename (_global_cert_directory cfg)
                                  GLOBAL_BUNDLE_PREFIX kv.1)) bundle),
         ca_pem, cert_pem, key_pem.
  split; [exact Hrun|]. do 3 (split; [done|]).
  pose proof (Hdone "ca" ca_pem (proj2 (dict_get_elem_of bundle _ _ Hwf) Hca)) as Hfca.
  pose proof (Hdone "cert" cert_pem (proj2 (dict_get_elem_of bundle _ _ Hwf) Hcert)) as Hfcert.
  pose proof (Hdone "key" key_pem (proj2 (dict_get_elem_of bundle _ _ Hwf) Hkey)) as Hfkey.
  unfold read_global_cert_bundle, VALID_BUNDLE_KEYS. simpl read_pieces.
  rewrite (os_path_exists_true _ _ _ Hfca), (os_path_exists_true _ _ _ Hfcert),
    (os_path_exists_true _ _ _ Hfkey).
  unfold read_file. rewrite Hfca, Hfcert, Hfkey. done.
Qed.

Lemma global_bundle_round_trip_witness :
  ∃ w' cert_files ca_pem cert_pem key_pem,
    write_global_repo_cert_bundle sample_config sample_bundle empty_world
    = (w', Return cert_files)
    ∧ dict_get sample_bundle "ca" = Some ca_pem
    ∧ dict_get sample_bundle "cert" = Some cert_pem
    ∧ dict_get sample_bundle "key" = Some key_pem
    ∧ read_global_cert_bundle sample_config VALID_BUNDLE_KEYS w'
      = Return (Some [("ca", ca_pem); ("cert", cert_pem); ("key", key_pem)])
    ∧ read_global_cert_bundle sample_config ["ca"] w' = Return (Some [("ca", ca_pem)]).
Proof.
  apply (global_bundle_round_trip sample_config sample_bundle empty_world).
  - apply (bool_decide_unpack _). vm_compute. exact I.
  - intros k. split; intros Hk; exact Hk.
  - apply (bool_decide_unpack _). vm_compute. exact I.
  - apply Forall_forall. apply (bool_decide_unpack _). vm_compute. exact I.
Defined.

Lemma read_global_omits_missing_parts_witness :
  ∃ r, read_global_cert_bundle sample_config ["ca"; "key"] empty_world = Return r
    ∧ (r = None ↔ ∀ s, s ∈ ["ca"; "key"] →
                       nodes empty_world !! global_filename sample_config s = None)
    ∧ r ≠ Some []
    ∧ (∀ d, r = Some d →
            ∀ s, dict_get d s
                 = if decide (s ∈ ["ca"; "key"])
                   then file_contents (global_filename sample_config s) empty_world
                   else None).
Proof.
  apply (read_global_omits_missing_parts sample_config ["ca"; "key"] empty_world).
  apply Forall_forall. apply (bool_decide_unpack _). vm_compute. exact I.
Defined.

(** ** Validation *)

Lemma filter_nil_forall {A} (P : A → Prop) `{∀ x, Decision (P x)} (l : list A) :
  filter P l = [] ↔ ∀ x, x ∈ l → ¬ P x.
Proof.
  split.
  - intros Hnil x Hx HP. apply (elem_of_nil x). rewrite <- Hnil.
    by apply list_elem_of_filter.
  - intros Hall. apply elem_of_nil_inv. intros x [HP Hx]%list_elem_of_filter.
    by apply (Hall x).
Qed.

(** [missing_keys] holds every required key the bundle lacks. *)
Lemma elem_of_missing_keys (d : dict) (k : string) :
  k ∈ missing_keys d ↔ k ∈ VALID_BUNDLE_KEYS ∧ k ∉ dict_keys d.
Proof. unfold missing_keys. rewrite list_elem_of_filter. tauto. Qed.

(** [extra_keys] holds every key of the bundle that is not required. *)
Lemma elem_of_extra_keys (d : dict) (k : string) :
  k ∈ extra_keys d ↔ k ∈ dict_keys d ∧ k ∉ VALID_BUNDLE_KEYS.
Proof. unfold extra_keys. rewrite list_elem_of_filter. tauto. Qed.

Lemma missing_keys_nil (d : dict) :
  missing_keys d = [] ↔ ∀ k, k ∈ VALID_BUNDLE_KEYS → k ∈ dict_keys d.
Proof.
  unfold missing_keys. rewrite filter_nil_forall. split; intros Hall k Hk.
  - destruct (decide (k ∈ dict_keys d)) as [|Hn]; [done|]. by destruct (Hall k Hk).
  - intros Hn. by apply Hn, Hall.
Qed.

Lemma extra_keys_nil (d : dict) :
  extra_keys d = [] ↔ ∀ k, k ∈ dict_keys d → k ∈ VALID_BUNDLE_KEYS.
Proof.
  unfold extra_keys. rewrite filter_nil_forall. split; intros Hall k Hk.
  - destruct (decide (k ∈ VALID_BUNDLE_KEYS)) as [|Hn]; [done|]. by destruct (Hall k Hk).
  - intros Hn. by apply Hn, Hall.
Qed.

Lemma ltb_length_nil {A} (l : list A) : Nat.ltb 0 (length l) = false ↔ l = [].
Proof. by destruct l. Qed.

(** What [validate_cert_bundle] answers for a dict, by the two lists. *)
Lemma validate_dict_cases (d : dict) :
  validate_cert_bundle (PyDict d)
  = match missing_keys d, extra_keys d with
    | _ :: _, _ => Raise (ValueError ("Missing items in cert bundle ["
                                      +:+ str_join ", " (missing_keys d) +:+ "]"))
    | [], _ :: _ => Raise (ValueError ("Unexpected items in cert bundle ["
                                       +:+ str_join ", " (extra_keys d) +:+ "]"))
    | [], [] => Return tt
    end.
Proof.
  unfold validate_cert_bundle.
  destruct (missing_keys d) as [|m ms]; [|done].
  by destruct (extra_keys d) as [|e es].
Qed.

(** C4: [validate_cert_bundle] returns nothing exactly for a dict whose key
    set is {ca, cert, key}; for every other input ([None], an object that
    is no dict, a dict that lacks a required key or has another key) it
    raises [ValueError]. *)
Theorem validate_cert_bundle_iff_exact_keys (bundle : pyval) :
  (validate_cert_bundle bundle = Return tt
   ↔ ∃ d, bundle = PyDict d ∧ ∀ k, k ∈ dict_keys d ↔ k ∈ VALID_BUNDLE_KEYS)
  ∧ (validate_cert_bundle bundle = Return tt
     ∨ ∃ msg, validate_cert_bundle bundle = Raise (ValueError msg)).
Proof.
  destruct bundle as [|d|ty].
  - split; [|right; by eexists]. split; [done|]. by intros (d & ? & _).
  - rewrite validate_dict_cases.
    destruct (missing_keys d) as [|m ms] eqn:Hm.
    + destruct (extra_keys d) as [|e es] eqn:He.
      * split; [|by left]. split; [|done]. intros _. exists d. split; [done|].
        intros k. split; [by apply extra_keys_nil | by apply missing_keys_nil].
      * split; [|right; by eexists]. split; [done|].
        intros (d' & [= <-] & Hkeys). exfalso.
        assert (extra_keys d = []) as Hnil by (apply extra_keys_nil; intros k; apply Hkeys).
        by rewrite Hnil in He.
    + split; [|right; by eexists]. split; [done|].
      intros (d' & [= <-] & Hkeys). exfalso.
      assert (missing_keys d = []) as Hnil by (apply missing_keys_nil; intros k; apply Hkeys).
      by rewrite Hnil in Hm.
  - split; [|right; by eexists]. split; [done|]. by intros (d & ? & _).
Qed.

(** C5, as the spec states it, fails: a bundle that lacks cert and key and
    has the extra key [extra] is refused with a message that lists the two
    missing keys and says nothing of [extra]. *)
Lemma validate_error_omits_extra_keys :
  validate_cert_bundle (PyDict [("ca", "x"); ("extra", "w")])
  = Raise (ValueError "Missing items in cert bundle [cert, key]")
  ∧ missing_keys [("ca", "x"); ("extra", "w")] = ["cert"; "key"]
  ∧ extra_keys [("ca", "x"); ("extra", "w")] = ["extra"]
  ∧ contains "extra" "Missing items in cert bundle [cert, key]" = false.
Proof. by vm_compute. Qed.

(** C5, as the code has it: the two lists are complete, and the error
    names one of them: every missing key when a required key is missing
    (whatever extra keys there are), every extra key only when no required
    key is missing. *)
Theorem validate_error_lists_one_kind (d : dict) :
  (∀ k, k ∈ missing_keys d ↔ k ∈ VALID_BUNDLE_KEYS ∧ k ∉ dict_keys d)
  ∧ (∀ k, k ∈ extra_keys d ↔ k ∈ dict_keys d ∧ k ∉ VALID_BUNDLE_KEYS)
  ∧ (missing_keys d ≠ [] →
     validate_cert_bundle (PyDict d)
     = Raise (ValueError ("Missing items in cert bundle ["
                          +:+ str_join ", " (missing_keys d) +:+ "]")))
  ∧ (missing_keys d = [] → extra_keys d ≠ [] →
     validate_cert_bundle (PyDict d)
     = Raise (ValueError ("Unexpected items in cert bundle ["
                          +:+ str_join ", " (extra_keys d) +:+ "]"))).
Proof.
  split; [apply elem_of_missing_keys|]. split; [apply elem_of_extra_keys|].
  rewrite validate_dict_cases. split.
  - by destruct (missing_keys d).
  - intros -> ?. by destruct (extra_keys d).
Qed.

(** ** Verifying a certificate *)

Section TrustVerifierFacts.
Context {X509 PKey : Type}.
Variable load_cert_bio : string → outcome X509.
Variable get_pubkey : X509 → PKey.
Variable verify : X509 → PKey → bool.

(** C8: on paths whose files hold the two PEM texts,
    [validate_certificate] gives what [validate_certificate_pem] gives on
    the texts: both parse the CA and then the certificate, take the CA's
    public key and return the boolean of [verify]; a text that does not
    parse raises the parser's error in both. *)
Theorem validate_certificate_agrees_with_pem
    (cert_filename ca_filename cert_pem ca_pem : string) (w : World) :
  nodes w !! cert_filename = Some (File cert_pem) →
  nodes w !! ca_filename = Some (File ca_pem) →
  validate_certificate load_cert_bio get_pubkey verify cert_filename ca_filename w
  = validate_certificate_pem load_cert_bio get_pubkey verify cert_pem ca_pem
  ∧ validate_certificate_pem load_cert_bio get_pubkey verify cert_pem ca_pem
    = match load_cert_bio ca_pem, load_cert_bio cert_pem with
      | Return ca, Return cert => Return (verify cert (get_pubkey ca))
      | Raise e, _ => Raise e
      | Return _, Raise e => Raise e
      end.
Proof.
  intros Hcert Hca.
  unfold validate_certificate, validate_certificate_pem, X509_load_cert,
    X509_load_cert_string, read_file.
  rewrite Hcert, Hca. split; [done|].
  destruct (load_cert_bio ca_pem); [|done]. by destruct (load_cert_bio cert_pem).
Qed.
End TrustVerifierFacts.

Lemma validate_certificate_agrees_with_pem_witness :
  validate_certificate toy_load_cert_bio toy_get_pubkey toy_verify
    "/cert.pem" "/ca.pem" toy_world
  = validate_certificate_pem toy_load_cert_bio toy_get_pubkey toy_verify
      "repo1:root" "root:root"
  ∧ validate_certificate_pem toy_load_cert_bio toy_get_pubkey toy_verify
      "repo1:root" "root:root"
    = match toy_load_cert_bio "root:root", toy_load_cert_bio "repo1:root" with
      | Return ca, Return cert => Return (toy_verify cert (toy_get_pubkey ca))
      | Raise e, _ => Raise e
      | Return _, Raise e => Raise e
      end.
Proof.
  apply (validate_certificate_agrees_with_pem toy_load_cert_bio toy_get_pubkey toy_verify
           "/cert.pem" "/ca.pem" "repo1:root" "root:root" toy_world).
  - vm_compute. reflexivity.
  - vm_compute. reflexivity.
Defined.

Example toy_certificate_verifies :
  validate_certificate toy_load_cert_bio toy_get_pubkey toy_verify
    "/cert.pem" "/ca.pem" toy_world = Return true.
Proof. by vm_compute. Qed.

(** ** Splitting lines and fields *)

Lemma split_fields_no_sep (sep : ascii) (s : string) :
  has_char sep s = false → split_fields sep s = (s, []).
Proof.
  induction s as [|a s IH]; simpl; [done|].
  intros [Ha Hs]%orb_false_iff. by rewrite (IH Hs), Ha.
Qed.

Lemma split_fields_sep (sep : ascii) (s : string) :
  has_char sep s = true → ∃ f g rest, split_fields sep s = (f, g :: rest).
Proof.
  induction s as [|a s IH]; simpl; [done|].
  destruct (split_fields sep s) as [field others] eqn:Hsplit.
  destruct (Ascii.eqb a sep) eqn:Ha; simpl; [by eexists _, _, _|].
  intros Hs. destruct (IH Hs) as (f & g & rest & [= -> ->]). by eexists _, _, _.
Qed.

(** A line with no comma is the one that stops [parse_lines]. *)
Lemma parse_lines_no_comma (line : string) (lines : list string) (listings : dict) :
  has_char comma line = false →
  parse_lines (line :: lines) listings = (listings, Raise IndexError).
Proof.
  intros Hline. simpl. unfold str_split. by rewrite (split_fields_no_sep _ _ Hline).
Qed.

Lemma parse_lines_comma (line : string) :
  has_char comma line = true →
  ∃ piece1, ∀ (lines : list string) (listings : dict),
      parse_lines (line :: lines) listings
      = parse_lines lines (dict_set listings (split_fields comma line).1 piece1).
Proof.
  intros Hline. destruct (split_fields_sep _ _ Hline) as (f & g & rest & Hsplit).
  exists g. intros lines listings. simpl. unfold str_split. by rewrite Hsplit.
Qed.

(** Lines that all hold a comma are stored, and parsing goes on. *)
Lemma parse_lines_app_good (good lines : list string) :
  ∀ listings,
    Forall (λ l, has_char comma l = true) good →
    parse_lines (good ++ lines) listings = parse_lines lines (parse_lines good listings).1
    ∧ (parse_lines good listings).2 = Return tt.
Proof.
  induction good as [|line good IH]; intros listings Hgood; [done|].
  apply Forall_cons in Hgood as [Hline Hgood].
  destruct (parse_lines_comma line Hline) as [piece1 Hrun].
  change ((line :: good) ++ lines) with (line :: good ++ lines).
  rewrite !Hrun. by apply IH.
Qed.

(** The first line with no comma, with the lines before and after it. *)
Lemma first_line_without_comma (lines : list string) :
  (∃ line, line ∈ lines ∧ has_char comma line = false) →
  ∃ good bad rest,
    lines = good ++ bad :: rest
    ∧ Forall (λ l, has_char comma l = true) good
    ∧ has_char comma bad = false.
Proof.
  induction lines as [|l lines IH]; intros (line & Hin & Hline).
  - by apply elem_of_nil in Hin.
  - destruct (has_char comma l) eqn:Hl.
    + apply elem_of_cons in Hin as [->|Hin]; [congruence|].
      destruct IH as (good & bad & rest & -> & Hgood & Hbad); [by exists line|].
      exists (l :: good), bad, rest. split; [done|]. split; [|done].
      by apply Forall_cons.
    + by exists [], l, lines.
Qed.

Lemma split_fields_cons (sep a : ascii) (s : string) :
  split_fields sep (String a s)
  = if Ascii.eqb a sep
    then (EmptyString, (split_fields sep s).1 :: (split_fields sep s).2)
    else (String a (split_fields sep s).1, (split_fields sep s).2).
Proof. simpl. by destruct (split_fields sep s), (Ascii.eqb a sep). Qed.

(** The text after the last newline of a file that ends in one is the
    empty line. *)
Lemma endswith_split_fields (sep : ascii) (s : string) :
  endswith sep s = true → "" ∈ (split_fields sep s).2.
Proof.
  induction s as [|a s IH]; [done|].
  rewrite split_fields_cons. destruct s as [|b s'].
  - simpl. intros ->. apply elem_of_cons. by left.
  - intros Hend. change (endswith sep (String b s') = true) in Hend.
    specialize (IH Hend).
    destruct (Ascii.eqb a sep); [|done].
    cbn [snd]. apply elem_of_cons. by right.
Qed.

Lemma line_without_comma (contents : string) :
  contents = "" ∨ endswith newline contents = true
  ∨ (∃ line, line ∈ str_split newline contents ∧ has_char comma line = false) →
  ∃ line, line ∈ str_split newline contents ∧ has_char comma line = false.
Proof.
  intros [->|[Hend|Hline]]; [| |done].
  - exists "". split; [|done]. apply elem_of_cons. by left.
  - exists "". split; [|done].
    pose proof (endswith_split_fields _ _ Hend) as Hin. unfold str_split.
    destruct (split_fields newline contents). apply elem_of_cons. by right.
Qed.

(** Every key [parse_lines] leaves in the listings was there before or is
    the first field of a line it read. *)
Lemma parse_lines_keys (lines : list string) :
  ∀ listings k,
    k ∈ dict_keys (parse_lines lines listings).1 →
    k ∈ dict_keys listings ∨ ∃ l, l ∈ lines ∧ (split_fields comma l).1 = k.
Proof.
  induction lines as [|line lines IH]; intros listings k; simpl; [by left|].
  unfold str_split. destruct (split_fields comma line) as [f [|g rest]] eqn:Hsplit.
  - by left.
  - intros Hk. destruct (IH _ _ Hk) as [Hset|(l & Hl & Hkey)].
    + apply dict_keys_set in Hset as [->|?]; [|by left].
      right. exists line. split; [apply elem_of_cons; by left | by rewrite Hsplit].
    + right. exists l. split; [apply elem_of_cons; by right | done].
Qed.

(** C10: when the backing file exists and one of its lines has no comma
    (the empty file and every file that ends in a newline are such files),
    [load] raises [IndexError]; the listings then hold what the lines before
    the first such line stored and nothing of the lines after it. *)
Theorem load_line_without_comma_raises
    (allow_missing : bool) (self : ProtectedRepoListingFile) (w : World) (contents : string) :
  nodes w !! filename self = Some (File contents) →
  contents = "" ∨ endswith newline contents = true
  ∨ (∃ line, line ∈ str_split newline contents ∧ has_char comma line = false) →
  ∃ good bad rest,
    str_split newline contents = good ++ bad :: rest
    ∧ Forall (λ l, has_char comma l = true) good
    ∧ has_char comma bad = false
    ∧ load allow_missing self w
      = (mkListingFile (filename self) (parse_lines good (listings self)).1,
         Raise IndexError)
    ∧ (∀ k, k ∈ dict_keys (parse_lines good (listings self)).1 →
            k ∈ dict_keys (listings self)
            ∨ ∃ l, l ∈ good ∧ (split_fields comma l).1 = k).
Proof.
  intros Hfile Hbad%line_without_comma.
  destruct (first_line_without_comma _ Hbad) as (good & bad & rest & Hsplit & Hgood & Hb).
  exists good, bad, rest. do 3 (split; [done|]). split; [|apply parse_lines_keys].
  unfold load. rewrite (os_path_exists_true _ _ _ Hfile), andb_false_r.
  unfold read_file. rewrite Hfile, Hsplit.
  destruct (parse_lines_app_good good (bad :: rest) (listings self) Hgood) as [-> _].
  by rewrite (parse_lines_no_comma bad rest _ Hb).
Qed.

Lemma load_line_without_comma_raises_witness :
  ∃ good bad rest,
    str_split newline (String "/" (String "a" (String "," (String "r" (String newline "")))))
    = good ++ bad :: rest
    ∧ Forall (λ l, has_char comma l = true) good
    ∧ has_char comma bad = false
    ∧ load true (mkListingFile "/f" [])
        (mkWorld {[ "/f" := File (String "/" (String "a" (String "," (String "r"
                                   (String newline ""))))) ]} ∅ ∅ [] 0)
      = (mkListingFile "/f" (parse_lines good []).1, Raise IndexError)
    ∧ (∀ k, k ∈ dict_keys (parse_lines good []).1 →
            k ∈ dict_keys [] ∨ ∃ l, l ∈ good ∧ (split_fields comma l).1 = k).
Proof.
  apply (load_line_without_comma_raises true (mkListingFile "/f" [])
           (mkWorld {[ "/f" := File (String "/" (String "a" (String "," (String "r"
                                      (String newline ""))))) ]} ∅ ∅ [] 0)
           (String "/" (String "a" (String "," (String "r" (String newline "")))))).
  - vm_compute. reflexivity.
  - right. left. vm_compute. reflexivity.
Defined.

(** ** Saving and loading the listing file *)

Lemma has_char_app (c : ascii) (s t : string) :
  has_char c (s +:+ t) = has_char c s || has_char c t.
Proof.
  induction s as [|a s IH]; [done|].
  rewrite str_app_cons. simpl. by rewrite IH, orb_assoc.
Qed.

(** [save] writes no newline of its own: the text has one only where a
    path or a repo id has one. *)
Lemma saved_text_no_newline (listings : dict) :
  dict_wf listings →
  (∀ k v, (k, v) ∈ listings → has_char newline k = false ∧ has_char newline v = false) →
  has_char newline (saved_text listings) = false.
Proof.
  unfold saved_text, dict_wf, dict_keys.
  assert (Hgen : ∀ (d : dict) (urls : list string),
            (∀ k, k ∈ urls → has_char newline k = false
                             ∧ has_char newline (default "" (dict_get d k)) = false) →
            has_char newline
              (String.concat "" (map (λ url, url +:+ "," +:+ default "" (dict_get d url)) urls))
            = false).
  { intros d urls. induction urls as [|u urls IH]; intros Hall; [done|].
    assert (Hu : has_char newline (u +:+ "," +:+ default "" (dict_get d u)) = false).
    { destruct (Hall u) as [Hk Hv]; [apply elem_of_cons; by left|].
      by rewrite !has_char_app, Hk, Hv. }
    assert (Hrest : has_char newline
              (String.concat "" (map (λ url, url +:+ "," +:+ default "" (dict_get d url)) urls))
              = false).
    { apply IH. intros k Hk. apply Hall, elem_of_cons. by right. }
    simpl. destruct (map _ urls) as [|r rs] eqn:Hmap; [done|].
    rewrite has_char_app, Hu. simpl. exact Hrest. }
  intros Hwf Hall. apply Hgen. intros k Hk.
  apply list_elem_of_fmap in Hk as ([k' v] & -> & Hin). simpl.
  destruct (Hall _ _ Hin) as [Hk Hv]. split; [done|].
  apply (dict_get_elem_of listings k' v Hwf) in Hin. by rewrite Hin.
Qed.

(** C7: with the backing file absent, [load] with [allow_missing] true
    succeeds and leaves the listings of a fresh instance empty; adding
    "/a" for "repo1", saving, and loading a fresh instance over the same
    file gives exactly the mapping of "/a" to "repo1". *)
Theorem listing_file_missing_then_round_trip (f : string) (w : World) :
  nodes w !! f = None → f ∉ refused w → f ∉ failing w →
  ∃ fresh w',
    ProtectedRepoListingFile_init (Some f) = Return fresh
    ∧ listings fresh = []
    ∧ load true fresh w = (fresh, Return tt)
    ∧ save (add_protected_repo_path "/a" "repo1" fresh) w = (w', Return tt)
    ∧ nodes w' !! f = Some (File "/a,repo1")
    ∧ ∀ allow_missing,
        load allow_missing fresh w' = (mkListingFile f [("/a", "repo1")], Return tt).
Proof.
  intros Hnone Hr Hf.
  exists (mkListingFile f []), (set_nodes <[f := File "/a,repo1"]> w).
  split; [done|]. split; [done|]. split.
  { unfold load. simpl. by rewrite (os_path_exists_false _ _ Hnone). }
  split.
  { unfold save. simpl. apply write_file_writable. split; [done|]. split; [|done].
    by rewrite Hnone. }
  assert (Hfile : nodes (set_nodes <[f := File "/a,repo1"]> w) !! f = Some (File "/a,repo1")).
  { simpl. apply lookup_insert_eq. }
  split; [done|]. intros allow_missing. unfold load. cbn [filename listings].
  rewrite (os_path_exists_true _ _ _ Hfile), andb_false_r.
  unfold read_file. by rewrite Hfile.
Qed.

Lemma listing_file_missing_then_round_trip_witness :
  ∃ fresh w',
    ProtectedRepoListingFile_init (Some "/etc/pulp/protected") = Return fresh
    ∧ listings fresh = []
    ∧ load true fresh empty_world = (fresh, Return tt)
    ∧ save (add_protected_repo_path "/a" "repo1" fresh) empty_world = (w', Return tt)
    ∧ nodes w' !! "/etc/pulp/protected" = Some (File "/a,repo1")
    ∧ ∀ allow_missing,
        load allow_missing fresh w'
        = (mkListingFile "/etc/pulp/protected" [("/a", "repo1")], Return tt).
Proof.
  apply (listing_file_missing_then_round_trip "/etc/pulp/protected" empty_world).
  - vm_compute. reflexivity.
  - apply (bool_decide_unpack _). vm_compute. exact I.
  - apply (bool_decide_unpack _). vm_compute. exact I.
Defined.

(** C6 at two entries: [save] writes the two records with nothing between
    them, so the file is one line and a fresh [load] of it gives one entry,
    the first path mapped to the first repo id run together with the rest. *)
Theorem save_two_entries_one_line :
  ∃ w', save two_listings empty_world = (w', Return tt)
    ∧ nodes w' !! filename two_listings = Some (File "/a,repo1/b,repo2")
    ∧ has_char newline "/a,repo1/b,repo2" = false
    ∧ str_split newline "/a,repo1/b,repo2" = ["/a,repo1/b,repo2"]
    ∧ load true (mkListingFile (filename two_listings) []) w'
      = (mkListingFile (filename two_listings) [("/a", "repo1/b")], Return tt).
Proof.
  eexists. split; [by vm_compute|]. by vm_compute.
Qed.

(** ** The lock and the directory step *)

Lemma write_file_keeps (p value : string) (w : World) :
  refused (write_file p value w).1 = refused w
  ∧ failing (write_file p value w).1 = failing w
  ∧ log (write_file p value w).1 = log w
  ∧ write_lock (write_file p value w).1 = write_lock w.
Proof.
  unfold write_file. destruct (bool_decide (p ∈ refused w)); [done|].
  destruct (nodes w !! p) as [[|]|]; try done;
    by destruct (bool_decide (p ∈ failing w)).
Qed.

Lemma write_items_keeps_lock (file_prefix cert_dir : string) (items : dict) :
  ∀ (cert_files : dict) (w : World),
    write_lock (write_items file_prefix cert_dir items cert_files w).1 = write_lock w.
Proof.
  induction items as [|[key value] items IH]; intros cert_files w; simpl; [done|].
  set (w1 := LOG_info _ w). set (p := bundle_filename cert_dir file_prefix key).
  pose proof (write_file_keeps p value w1) as (_ & _ & _ & Hlock).
  destruct (write_file p value w1) as [w2 [[]|e]]; simpl in *.
  - by rewrite IH, Hlock.
  - by rewrite Hlock.
Qed.

(** The [finally] clause: whatever the outcome of [_write_cert_bundle], a
    result, [PulpException] from a part or [OSError] from [os.makedirs],
    the write lock is back at the depth it had before the call. *)
Theorem write_cert_bundle_releases_lock
    (file_prefix cert_dir : string) (bundle : dict) (w : World) :
  write_lock (_write_cert_bundle file_prefix cert_dir bundle w).1 = write_lock w.
Proof.
  unfold _write_cert_bundle. rewrite ensure_directory_acquire.
  destruct (ensure_directory cert_dir w) as [wd [[]|e]] eqn:Hdir; simpl.
  - pose proof (write_items_keeps_lock file_prefix cert_dir bundle [] (WRITE_LOCK_acquire wd))
      as Hlock.
    destruct (write_items _ _ _ _ _) as [w' r]. simpl in *. rewrite Hlock. simpl.
    revert Hdir. unfold ensure_directory, os_makedirs.
    destruct (os_path_exists _ _); [by intros [= <-]|].
    destruct (bool_decide _); [done|]. by intros [= <-].
  - revert Hdir. unfold ensure_directory, os_makedirs.
    destruct (os_path_exists _ _); [done|].
    destruct (bool_decide _); [|done]. by intros [= <- _].
Qed.



(** ** Feed and consumer bundles of one repository *)

Lemma os_path_join_relative (a b : string) :
  startswith slash b = false →
  os_path_join a b = os_path_join a "" +:+ b.
Proof.
  intros Hb. unfold os_path_join. rewrite Hb. simpl.
  destruct (bool_decide (a = "") || endswith slash a).
  - by rewrite str_app_nil_r.
  - by rewrite str_app_assoc.
Qed.

(** No file of the feed bundle of a repository is a file of its consumer
    bundle, whatever the parts are called. *)
Lemma feed_consumer_filenames_differ (cert_dir repo_id k k' : string) :
  bundle_filename cert_dir ("feed-" +:+ repo_id) k
  ≠ bundle_filename cert_dir ("consumer-" +:+ repo_id) k'.
Proof.
  unfold bundle_filename.
  rewrite (os_path_join_relative cert_dir (("feed-" +:+ repo_id) +:+ "." +:+ k)) by done.
  rewrite (os_path_join_relative cert_dir (("consumer-" +:+ repo_id) +:+ "." +:+ k')) by done.
  intros Heq%String.app_inj. discriminate Heq.
Qed.

(** Writing the consumer bundle of a repository leaves every file of its
    feed bundle as it was: the prefix keeps the two bundles apart. *)
Theorem write_consumer_keeps_feed_files
    (cfg : Config) (repo_id : string) (bundle : dict) (w : World) :
  dict_wf bundle →
  dir_ready (_repo_cert_directory cfg repo_id) w →
  (∀ k, k ∈ dict_keys bundle →
        writable (bundle_filename (_repo_cert_directory cfg repo_id)
                    ("consumer-" +:+ repo_id) k) w
        ∧ bundle_filename (_repo_cert_directory cfg repo_id) ("consumer-" +:+ repo_id) k
          ≠ _repo_cert_directory cfg repo_id) →
  ∃ w' cert_files,
    write_consumer_cert_bundle cfg repo_id bundle w = (w', Return cert_files)
    ∧ ∀ k, bundle_filename (_repo_cert_directory cfg repo_id) ("feed-" +:+ repo_id) k
           ≠ _repo_cert_directory cfg repo_id →
           nodes w' !! bundle_filename (_repo_cert_directory cfg repo_id)
                         ("feed-" +:+ repo_id) k
           = nodes w !! bundle_filename (_repo_cert_directory cfg repo_id)
                          ("feed-" +:+ repo_id) k.
Proof.
  intros Hwf Hready Hw. unfold write_consumer_cert_bundle.
  destruct (write_cert_bundle_writable ("consumer-" +:+ repo_id)
              (_repo_cert_directory cfg repo_id) bundle w Hwf Hready Hw)
    as (w' & Hrun & _ & Hframe & _).
  eexists _, _. split; [exact Hrun|]. intros k Hne. apply Hframe; [done|].
  intros k' _. apply feed_consumer_filenames_differ.
Qed.

Lemma write_consumer_keeps_feed_files_witness :
  ∃ w' cert_files,
    write_consumer_cert_bundle sample_config "repo1" sample_bundle empty_world
    = (w', Return cert_files)
    ∧ ∀ k, bundle_filename (_repo_cert_directory sample_config "repo1") ("feed-" +:+ "repo1") k
           ≠ _repo_cert_directory sample_config "repo1" →
           nodes w' !! bundle_filename (_repo_cert_directory sample_config "repo1")
                         ("feed-" +:+ "repo1") k
           = nodes empty_world !! bundle_filename (_repo_cert_directory sample_config "repo1")
                                    ("feed-" +:+ "repo1") k.
Proof.
  apply (write_consumer_keeps_feed_files sample_config "repo1" sample_bundle empty_world).
  - apply (bool_decide_unpack _). vm_compute. exact I.
  - apply (bool_decide_unpack _). vm_compute. exact I.
  - apply Forall_forall. apply (bool_decide_unpack _). vm_compute. exact I.
Defined.

(** ** Deleting the global bundle *)

Lemma os_remove_file (p contents : string) (w : World) :
  nodes w !! p = Some (File contents) → p ∉ refused w →
  os_remove p w = (set_nodes (base.delete p) w, Return tt).
Proof.
  intros Hfile Hr. unfold os_remove. by rewrite Hfile, (bool_decide_eq_false_2 _ Hr).
Qed.

(** The loop of [delete_global_cert_bundle] over files that can be removed:
    every file it names is gone afterwards and no other path changes. *)
Lemma delete_suffixes_removes (cert_dir : string) (suffixes : list string) :
  ∀ w,
    (∀ s, s ∈ suffixes →
          nodes w !! bundle_filename cert_dir GLOBAL_BUNDLE_PREFIX s ≠ Some Dir
          ∧ bundle_filename cert_dir GLOBAL_BUNDLE_PREFIX s ∉ refused w) →
    ∃ w', delete_suffixes cert_dir suffixes w = (w', Return tt)
      ∧ (∀ s, s ∈ suffixes →
              nodes w' !! bundle_filename cert_dir GLOBAL_BUNDLE_PREFIX s = None)
      ∧ (∀ p, (∀ s, s ∈ suffixes → p ≠ bundle_filename cert_dir GLOBAL_BUNDLE_PREFIX s) →
              nodes w' !! p = nodes w !! p)
      ∧ refused w' = refused w ∧ write_lock w' = write_lock w.
Proof.
  induction suffixes as [|suffix rest IH]; intros w Hok; simpl.
  - exists w. split; [done|]. split; [by intros s ?%elem_of_nil | done].
  - set (p := bundle_filename cert_dir GLOBAL_BUNDLE_PREFIX suffix).
    destruct (Hok suffix) as [Hnodir Hr]; [apply elem_of_cons; by left|]. fold p in Hnodir, Hr.
    assert (Hstep : ∃ w2, (if os_path_exists p w
                           then match os_remove p (LOG_info
                                  ("Deleting global repo cert bundle file [" +:+ p +:+ "]") w) with
                                | (w2, Return _) => delete_suffixes cert_dir rest w2
                                | (w2, Raise e) => (w2, Raise e)
                                end
                           else delete_suffixes cert_dir rest w)
                          = delete_suffixes cert_dir rest w2
                          ∧ nodes w2 !! p = None
                          ∧ (∀ q, q ≠ p → nodes w2 !! q = nodes w !! q)
                          ∧ refused w2 = refused w ∧ write_lock w2 = write_lock w).
    { destruct (nodes w !! p) as [[contents|]|] eqn:Hp; [|done|].
      - rewrite (os_path_exists_true _ _ _ Hp).
        erewrite os_remove_file; [|exact Hp|exact Hr].
        eexists. split; [done|]. simpl. split; [apply lookup_delete_eq|].
        split; [|done]. intros q Hq. by apply lookup_delete_ne.
      - rewrite (os_path_exists_false _ _ Hp). by exists w. }
    destruct Hstep as (w2 & -> & Hgone & Hframe2 & Hr2 & Hl2).
    destruct (IH w2) as (w' & Hrun & Hnone & Hframe & Hr' & Hl').
    { intros s Hs. destruct (Hok s) as [Hd Hrs]; [apply elem_of_cons; by right|].
      rewrite Hr2. split; [|done].
      destruct (decide (bundle_filename cert_dir GLOBAL_BUNDLE_PREFIX s = p)) as [->|Hne].
      - by rewrite Hgone.
      - by rewrite Hframe2. }
    exists w'. split; [done|]. split; [|split; [|by rewrite Hr', Hl']].
    + intros s [->|Hs]%elem_of_cons; [|by apply Hnone].
      destruct (decide (suffix ∈ rest)) as [Hin|Hnin]; [by apply Hnone|].
      rewrite Hframe; [done|]. intros s Hs Heq.
      apply bundle_filename_inj in Heq as <-. done.
    + intros q Hq. rewrite Hframe.
      * apply Hframe2, Hq, elem_of_cons. by left.
      * intros s Hs. apply Hq, elem_of_cons. by right.
Qed.

(** Deleting the global bundle, when each of its three files is absent or
    a file that can be removed, succeeds, leaves none of the three, touches
    no other path, and a read of any parts afterwards answers [None]. *)
Theorem delete_global_then_read_none (cfg : Config) (w : World) :
  (∀ s, s ∈ VALID_BUNDLE_KEYS →
        nodes w !! global_filename cfg s ≠ Some Dir ∧ global_filename cfg s ∉ refused w) →
  ∃ w', delete_global_cert_bundle cfg w = (w', Return tt)
    ∧ (∀ s, s ∈ VALID_BUNDLE_KEYS → nodes w' !! global_filename cfg s = None)
    ∧ (∀ p, (∀ s, s ∈ VALID_BUNDLE_KEYS → p ≠ global_filename cfg s) →
            nodes w' !! p = nodes w !! p)
    ∧ (∀ pieces, pieces ⊆ VALID_BUNDLE_KEYS →
                 read_global_cert_bundle cfg pieces w' = Return None).
Proof.
  intros Hok. unfold delete_global_cert_bundle.
  destruct (delete_suffixes_removes (_global_cert_directory cfg) VALID_BUNDLE_KEYS w Hok)
    as (w' & Hrun & Hnone & Hframe & _).
  exists w'. do 3 (split; [done|]). intros pieces Hsub.
  unfold read_global_cert_bundle.
  destruct (read_pieces_files (_global_cert_directory cfg) pieces [] w')
    as (r & Hread & _ & Hnil).
  { intros s Hs. unfold global_filename in Hnone. by rewrite (Hnone s (Hsub s Hs)). }
  rewrite Hread.
  assert (r = []) as ->; [|done].
  apply Hnil. split; [done|]. intros s Hs. apply (Hnone s), Hsub, Hs.
Qed.

Lemma delete_global_then_read_none_witness :
  ∃ w', delete_global_cert_bundle sample_config
          (write_global_repo_cert_bundle sample_config sample_bundle empty_world).1
        = (w', Return tt)
    ∧ (∀ s, s ∈ VALID_BUNDLE_KEYS → nodes w' !! global_filename sample_config s = None)
    ∧ (∀ p, (∀ s, s ∈ VALID_BUNDLE_KEYS → p ≠ global_filename sample_config s) →
            nodes w' !! p
            = nodes (write_global_repo_cert_bundle sample_config sample_bundle empty_world).1
                !! p)
    ∧ (∀ pieces, pieces ⊆ VALID_BUNDLE_KEYS →
                 read_global_cert_bundle sample_config pieces w' = Return None).
Proof.
  apply (delete_global_then_read_none sample_config
           (write_global_repo_cert_bundle sample_config sample_bundle empty_world).1).
  apply Forall_forall. apply (bool_decide_unpack _). vm_compute. exact I.
Defined.

(** With no file of the global bundle on disk, deleting it has no effect
    at all: nothing is removed and nothing is logged. *)
Theorem delete_global_absent_no_effect (cfg : Config) (w : World) :
  (∀ s, s ∈ VALID_BUNDLE_KEYS → nodes w !! global_filename cfg s = None) →
  delete_global_cert_bundle cfg w = (w, Return tt).
Proof.
  intros Hnone. unfold delete_global_cert_bundle, VALID_BUNDLE_KEYS. simpl.
  unfold global_filename in Hnone.
  rewrite !os_path_exists_false; [done|..];
    apply Hnone; apply (bool_decide_unpack _); by vm_compute.
Qed.

Lemma delete_global_absent_no_effect_witness :
  delete_global_cert_bundle sample_config empty_world = (empty_world, Return tt).
Proof.
  apply (delete_global_absent_no_effect sample_config empty_world).
  intros s _. vm_compute. reflexivity.
Defined.

(** ** Listings in memory *)

Lemma dict_pop_absent (d : dict) (k : string) : k ∉ dict_keys d → dict_pop d k = d.
Proof.
  unfold dict_keys. induction d as [|[k0 v0] d IH]; simpl; [done|].
  intros [Hne Hk]%not_elem_of_cons. destruct (decide (k0 = k)); [congruence|].
  by rewrite IH.
Qed.

Lemma dict_get_pop (d : dict) (k k' : string) :
  dict_wf d →
  dict_get (dict_pop d k) k' = if decide (k = k') then None else dict_get d k'.
Proof.
  unfold dict_wf, dict_keys. induction d as [|[k0 v0] d IH]; simpl.
  - intros _. by destruct (decide (k = k')).
  - intros [Hk0 Hnd]%NoDup_cons.
    destruct (decide (k0 = k)) as [->|Hne]; simpl.
    + destruct (decide (k = k')) as [<-|?]; [|done].
      by apply dict_get_None.
    + destruct (decide (k0 = k')) as [->|?].
      * by destruct (decide (k = k')); [congruence|].
      * by apply IH.
Qed.

(** [add_protected_repo_path] maps the path to the repo id, replacing what
    the path was mapped to, and changes no other path and not the file name;
    the listings stay a dict. *)
Theorem add_protected_repo_path_lookup
    (self : ProtectedRepoListingFile) (relative_path_url repo_id other : string) :
  dict_get (listings (add_protected_repo_path relative_path_url repo_id self)) other
  = (if decide (relative_path_url = other) then Some repo_id
     else dict_get (listings self) other)
  ∧ filename (add_protected_repo_path relative_path_url repo_id self) = filename self
  ∧ (dict_wf (listings self) →
     dict_wf (listings (add_protected_repo_path relative_path_url repo_id self))).
Proof.
  split; [apply dict_get_set|]. split; [done|]. apply dict_set_wf.
Qed.

(** [remove_protected_repo_path] takes the path out and leaves every other
    path as it was; on a path that is not listed it changes nothing. *)
Theorem remove_protected_repo_path_lookup
    (self : ProtectedRepoListingFile) (relative_path_url other : string) :
  dict_wf (listings self) →
  dict_get (listings (remove_protected_repo_path relative_path_url self)) other
  = (if decide (relative_path_url = other) then None else dict_get (listings self) other)
  ∧ (dict_get (listings self) relative_path_url = None →
     remove_protected_repo_path relative_path_url self = self).
Proof.
  intros Hwf. split; [by apply dict_get_pop|].
  intros Hnone%dict_get_None. unfold remove_protected_repo_path.
  rewrite (dict_pop_absent _ _ Hnone). by destruct self.
Qed.

Lemma remove_protected_repo_path_lookup_witness :
  dict_get (listings (remove_protected_repo_path "/a" two_listings)) "/b"
  = (if decide ("/a" = "/b") then None else dict_get (listings two_listings) "/b")
  ∧ (dict_get (listings two_listings) "/a" = None →
     remove_protected_repo_path "/a" two_listings = two_listings).
Proof.
  apply (remove_protected_repo_path_lookup two_listings "/a" "/b").
  apply (bool_decide_unpack _). vm_compute. exact I.
Defined.

(** ** Loading *)

(** With the backing file absent, [load] returns at once when
    [allow_missing] is true and raises the error of [open] when it is
    false; the listings are as before in both cases. *)
Theorem load_missing_file (self : ProtectedRepoListingFile) (w : World) :
  nodes w !! filename self = None →
  load true self w = (self, Return tt)
  ∧ load false self w = (self, Raise (IOError (filename self))).
Proof.
  intros Hnone. unfold load. rewrite (os_path_exists_false _ _ Hnone). simpl.
  unfold read_file. by rewrite Hnone.
Qed.

Lemma load_missing_file_witness :
  load true two_listings empty_world = (two_listings, Return tt)
  ∧ load false two_listings empty_world
    = (two_listings, Raise (IOError (filename two_listings))).
Proof.
  apply (load_missing_file two_listings empty_world). vm_compute. reflexivity.
Defined.

Lemma split_fields_app_sep (sep : ascii) (p r : string) :
  has_char sep p = false →
  split_fields sep (p +:+ String sep r)
  = (p, (split_fields sep r).1 :: (split_fields sep r).2).
Proof.
  induction p as [|a p IH]; intros Hp.
  - rewrite str_app_nil_l, split_fields_cons. by rewrite Ascii.eqb_refl.
  - simpl in Hp. apply orb_false_iff in Hp as [Ha Hp].
    rewrite str_app_cons, split_fields_cons, Ha, (IH Hp). done.
Qed.

(** Loading a file of one record. *)
Lemma load_one_record
    (allow_missing : bool) (self : ProtectedRepoListingFile) (w : World) (path repo_id : string) :
  nodes w !! filename self = Some (File (path +:+ "," +:+ repo_id)) →
  has_char comma path = false → has_char newline path = false →
  has_char comma repo_id = false → has_char newline repo_id = false →
  load allow_missing self w
  = (mkListingFile (filename self) (dict_set (listings self) path repo_id), Return tt).
Proof.
  intros Hfile Hcp Hnp Hcr Hnr. unfold load.
  rewrite (os_path_exists_true _ _ _ Hfile), andb_false_r.
  unfold read_file. rewrite Hfile. unfold str_split at 1.
  rewrite split_fields_no_sep.
  2:{ rewrite !has_char_app, Hnp, Hnr. done. }
  simpl parse_lines. unfold str_split.
  change (path +:+ "," +:+ repo_id) with (path +:+ String comma repo_id).
  rewrite (split_fields_app_sep comma path repo_id Hcp).
  by rewrite (split_fields_no_sep comma repo_id Hcr).
Qed.

(** A file that holds the one record [path,repo_id] (no comma in the path,
    no comma in the id, no newline in either) loads as that one mapping,
    set into the listings the instance already has: [load] adds to the
    listings, it does not start from an empty dict. *)
Theorem load_single_record
    (allow_missing : bool) (self : ProtectedRepoListingFile) (w : World) (path repo_id : string) :
  nodes w !! filename self = Some (File (path +:+ "," +:+ repo_id)) →
  has_char comma path = false → has_char newline path = false →
  has_char comma repo_id = false → has_char newline repo_id = false →
  load allow_missing self w
  = (mkListingFile (filename self) (dict_set (listings self) path repo_id), Return tt).
Proof. apply load_one_record. Qed.

Lemma load_single_record_witness :
  load true (mkListingFile "/f" [("/b", "repo2")])
    (mkWorld {[ "/f" := File ("/a" +:+ "," +:+ "repo1") ]} ∅ ∅ [] 0)
  = (mkListingFile "/f" (dict_set [("/b", "repo2")] "/a" "repo1"), Return tt).
Proof.
  apply (load_single_record true (mkListingFile "/f" [("/b", "repo2")])
           (mkWorld {[ "/f" := File ("/a" +:+ "," +:+ "repo1") ]} ∅ ∅ [] 0) "/a" "repo1");
    vm_compute; reflexivity.
Defined.

(** ** Saving *)

Lemma saved_text_single (path repo_id : string) :
  saved_text [(path, repo_id)] = path +:+ "," +:+ repo_id.
Proof. unfold saved_text. simpl. by rewrite decide_True. Qed.

(** A listing of one entry survives [save] and a later [load]: for a path
    and a repo id with no comma and no newline, the saved file is the one
    record and loading it sets that path to that id. *)
Theorem save_then_load_single_entry (f path repo_id : string) (w : World) :
  writable f w →
  has_char comma path = false → has_char newline path = false →
  has_char comma repo_id = false → has_char newline repo_id = false →
  ∃ w', save (mkListingFile f [(path, repo_id)]) w = (w', Return tt)
    ∧ nodes w' !! f = Some (File (path +:+ "," +:+ repo_id))
    ∧ ∀ allow_missing other,
        load allow_missing (mkListingFile f other) w'
        = (mkListingFile f (dict_set other path repo_id), Return tt).
Proof.
  intros Hw Hcp Hnp Hcr Hnr.
  exists (set_nodes <[f := File (path +:+ "," +:+ repo_id)]> w).
  split.
  { unfold save. cbn [filename listings]. rewrite saved_text_single.
    by apply write_file_writable. }
  assert (Hfile : nodes (set_nodes <[f := File (path +:+ "," +:+ repo_id)]> w) !! f
                  = Some (File (path +:+ "," +:+ repo_id))) by apply lookup_insert_eq.
  split; [done|]. intros allow_missing other.
  by apply (load_one_record allow_missing (mkListingFile f other)).
Qed.

Lemma save_then_load_single_entry_witness :
  ∃ w', save (mkListingFile "/f" [("/a", "repo1")]) empty_world = (w', Return tt)
    ∧ nodes w' !! "/f" = Some (File ("/a" +:+ "," +:+ "repo1"))
    ∧ ∀ allow_missing other,
        load allow_missing (mkListingFile "/f" other) w'
        = (mkListingFile "/f" (dict_set other "/a" "repo1"), Return tt).
Proof.
  apply (save_then_load_single_entry "/f" "/a" "repo1" empty_world).
  - apply (bool_decide_unpack _). vm_compute. exact I.
  - vm_compute. reflexivity.
  - vm_compute. reflexivity.
  - vm_compute. reflexivity.
  - vm_compute. reflexivity.
Defined.

(** [save] replaces the whole file by the records written one after the
    other with no separator: when no path and no repo id holds a newline,
    the file is a single line, however many entries the listings have. *)
Theorem save_writes_single_line (self : ProtectedRepoListingFile) (w : World) :
  writable (filename self) w →
  dict_wf (listings self) →
  (∀ k v, (k, v) ∈ listings self →
          has_char newline k = false ∧ has_char newline v = false) →
  ∃ w', save self w = (w', Return tt)
    ∧ nodes w' !! filename self = Some (File (saved_text (listings self)))
    ∧ (∀ p, p ≠ filename self → nodes w' !! p = nodes w !! p)
    ∧ str_split newline (saved_text (listings self)) = [saved_text (listings self)].
Proof.
  intros Hw Hwf Hnl. eexists. split; [by apply write_file_writable|].
  simpl. split; [apply lookup_insert_eq|]. split.
  - intros p Hp. by apply lookup_insert_ne.
  - unfold str_split. by rewrite (split_fields_no_sep _ _ (saved_text_no_newline _ Hwf Hnl)).
Qed.

Lemma save_writes_single_line_witness :
  ∃ w', save two_listings empty_world = (w', Return tt)
    ∧ nodes w' !! filename two_listings = Some (File (saved_text (listings two_listings)))
    ∧ (∀ p, p ≠ filename two_listings → nodes w' !! p = nodes empty_world !! p)
    ∧ str_split newline (saved_text (listings two_listings))
      = [saved_text (listings two_listings)].
Proof.
  apply (save_writes_single_line two_listings empty_world).
  - apply (bool_decide_unpack _). vm_compute. exact I.
  - apply (bool_decide_unpack _). vm_compute. exact I.
  - intros k v Hkv.
    assert (HF : Forall (λ kv : string * string,
                           has_char newline kv.1 = false ∧ has_char newline kv.2 = false)
                   (listings two_listings))
      by (apply (bool_decide_unpack _); vm_compute; exact I).
    exact (proj1 (Forall_forall _ _) HF (k, v) Hkv).
Defined.

(** ** Deleting the listing file *)

(** [delete] removes the backing file when it is there (a file that can be
    removed) and touches nothing else; once it is gone a second [delete]
    does nothing, and [load] with [allow_missing] leaves the listings. *)
Theorem delete_listing_file (self : ProtectedRepoListingFile) (w : World) (contents : string) :
  nodes w !! filename self = Some (File contents) → filename self ∉ refused w →
  ∃ w', delete self w = (w', Return tt)
    ∧ nodes w' !! filename self = None
    ∧ (∀ p, p ≠ filename self → nodes w' !! p = nodes w !! p)
    ∧ delete self w' = (w', Return tt)
    ∧ load true self w' = (self, Return tt).
Proof.
  intros Hfile Hr. unfold delete at 1. rewrite (os_path_exists_true _ _ _ Hfile).
  rewrite (os_remove_file _ _ _ Hfile Hr). eexists. split; [done|].
  assert (Hgone : nodes (set_nodes (base.delete (filename self)) w) !! filename self = None)
    by apply lookup_delete_eq.
  split; [done|]. split; [|split].
  - intros p Hp. by apply lookup_delete_ne.
  - unfold delete. by rewrite (os_path_exists_false _ _ Hgone).
  - unfold load. by rewrite (os_path_exists_false _ _ Hgone).
Qed.

Lemma delete_listing_file_witness :
  ∃ w', delete (mkListingFile "/f" [])
          (mkWorld {[ "/f" := File "/a,repo1" ]} ∅ ∅ [] 0) = (w', Return tt)
    ∧ nodes w' !! "/f" = None
    ∧ (∀ p, p ≠ "/f" → nodes w' !! p
                        = nodes (mkWorld {[ "/f" := File "/a,repo1" ]} ∅ ∅ [] 0) !! p)
    ∧ delete (mkListingFile "/f" []) w' = (w', Return tt)
    ∧ load true (mkListingFile "/f" []) w' = (mkListingFile "/f" [], Return tt).
Proof.
  apply (delete_listing_file (mkListingFile "/f" [])
           (mkWorld {[ "/f" := File "/a,repo1" ]} ∅ ∅ [] 0) "/a,repo1").
  - vm_compute. reflexivity.
  - apply (bool_decide_unpack _). vm_compute. exact I.
Defined.

(** ** Deleting the bundles of a repository *)

Lemma is_prefix_app (s t : string) : is_prefix s (s +:+ t) = true.
Proof.
  induction s as [|a s IH]; [done|].
  rewrite str_app_cons. simpl. by rewrite Ascii.eqb_refl, IH.
Qed.

(** A file of a bundle whose prefix does not begin with a slash lies under
    the directory of the bundle. *)
Lemma bundle_filename_under (cert_dir file_prefix suffix : string) :
  cert_dir ≠ "" → startswith slash (file_prefix +:+ "." +:+ suffix) = false →
  under cert_dir (bundle_filename cert_dir file_prefix suffix) = true.
Proof.
  intros Hdir Hrel. unfold under, bundle_filename, os_path_join. rewrite Hrel.
  rewrite (bool_decide_eq_false_2 _ Hdir). simpl.
  destruct (endswith slash cert_dir); [apply is_prefix_app|].
  rewrite <- str_app_assoc. apply is_prefix_app.
Qed.

(** With no directory for the repository, [delete_for_repo] does nothing:
    no error, nothing removed, nothing logged. *)
Theorem delete_for_repo_absent_no_effect (cfg : Config) (repo_id : string) (w : World) :
  nodes w !! _repo_cert_directory cfg repo_id = None →
  delete_for_repo cfg repo_id w = (w, Return tt).
Proof.
  intros Hnone. unfold delete_for_repo. by rewrite (os_path_exists_false _ _ Hnone).
Qed.

Lemma delete_for_repo_absent_no_effect_witness :
  delete_for_repo sample_config "repo1" empty_world = (empty_world, Return tt).
Proof.
  apply (delete_for_repo_absent_no_effect sample_config "repo1" empty_world).
  vm_compute. reflexivity.
Defined.

(** When the directory of the repository is there and can be removed,
    [delete_for_repo] removes it with every feed and consumer file of the
    repository, leaves the paths outside it alone, and a second call
    succeeds without doing anything. *)
Theorem delete_for_repo_removes_bundles (cfg : Config) (repo_id : string) (w : World) :
  nodes w !! _repo_cert_directory cfg repo_id = Some Dir →
  _repo_cert_directory cfg repo_id ∉ refused w →
  _repo_cert_directory cfg repo_id ≠ "" →
  ∃ w', delete_for_repo cfg repo_id w = (w', Return tt)
    ∧ nodes w' !! _repo_cert_directory cfg repo_id = None
    ∧ (∀ k, nodes w' !! bundle_filename (_repo_cert_directory cfg repo_id)
                           ("feed-" +:+ repo_id) k = None
            ∧ nodes w' !! bundle_filename (_repo_cert_directory cfg repo_id)
                            ("consumer-" +:+ repo_id) k = None)
    ∧ (∀ p, p ≠ _repo_cert_directory cfg repo_id →
            under (_repo_cert_directory cfg repo_id) p = false →
            nodes w' !! p = nodes w !! p)
    ∧ delete_for_repo cfg repo_id w' = (w', Return tt).
Proof.
  intros Hdir Hr Hne. unfold delete_for_repo at 1.
  rewrite (os_path_exists_true _ _ _ Hdir). unfold shutil_rmtree. cbn [nodes refused LOG_info].
  rewrite Hdir, (bool_decide_eq_false_2 _ Hr).
  eexists. split; [done|]. cbn [nodes set_nodes LOG_info].
  assert (Hgone : ∀ p, p = _repo_cert_directory cfg repo_id
                       ∨ under (_repo_cert_directory cfg repo_id) p = true →
            filter (λ kv : string * node, kv.1 ≠ _repo_cert_directory cfg repo_id
                     ∧ under (_repo_cert_directory cfg repo_id) kv.1 = false) (nodes w) !! p
            = None).
  { intros p Hp. apply map_lookup_filter_None. right. intros n _ [H1 H2]. simpl in *.
    destruct Hp as [->|Hp]; [done|congruence]. }
  split; [apply Hgone; by left|]. split; [|split].
  - intros k. split; apply Hgone; right; by apply bundle_filename_under.
  - intros p Hp Hout. destruct (nodes w !! p) as [n|] eqn:Hn.
    + by apply map_lookup_filter_Some.
    + apply map_lookup_filter_None. by left.
  - unfold delete_for_repo. rewrite os_path_exists_false; [done|].
    cbn [nodes]. apply Hgone. by left.
Qed.

Lemma delete_for_repo_removes_bundles_witness :
  ∃ w', delete_for_repo sample_config "repo1"
          (write_feed_cert_bundle sample_config "repo1" sample_bundle empty_world).1
        = (w', Return tt)
    ∧ nodes w' !! _repo_cert_directory sample_config "repo1" = None
    ∧ (∀ k, nodes w' !! bundle_filename (_repo_cert_directory sample_config "repo1")
                           ("feed-" +:+ "repo1") k = None
            ∧ nodes w' !! bundle_filename (_repo_cert_directory sample_config "repo1")
                            ("consumer-" +:+ "repo1") k = None)
    ∧ (∀ p, p ≠ _repo_cert_directory sample_config "repo1" →
            under (_repo_cert_directory sample_config "repo1") p = false →
            nodes w' !! p
            = nodes (write_feed_cert_bundle sample_config "repo1" sample_bundle empty_world).1
                !! p)
    ∧ delete_for_repo sample_config "repo1" w' = (w', Return tt).
Proof.
  apply (delete_for_repo_removes_bundles sample_config "repo1"
           (write_feed_cert_bundle sample_config "repo1" sample_bundle empty_world).1).
  - vm_compute. reflexivity.
  - apply (bool_decide_unpack _). vm_compute. exact I.
  - vm_compute. discriminate.
Defined.

(** ** A part whose write fails after the file was opened *)



(** ** Reading a part whose path is a directory *)

(** [os.path.exists] is true of a directory, so the check before [open]
    does not keep [read_global_cert_bundle] from one: the first requested
    part whose path is a directory makes the read raise the error of
    [open], and no mapping is returned. *)
Theorem read_global_directory_raises
    (cfg : Config) (before : list string) (suffix : string) (after : list string) (w : World) :
  (∀ s, s ∈ before → nodes w !! global_filename cfg s ≠ Some Dir) →
  nodes w !! global_filename cfg suffix = Some Dir →
  read_global_cert_bundle cfg (before ++ suffix :: after) w
  = Raise (IOError (global_filename cfg suffix)).
Proof.
  intros Hbefore Hdir. unfold read_global_cert_bundle.
  assert (Hgen : ∀ result,
            read_pieces (_global_cert_directory cfg) (before ++ suffix :: after) result w
            = Raise (IOError (global_filename cfg suffix))).
  { induction before as [|s before IH]; intros result; simpl.
    - unfold global_filename in Hdir. rewrite (os_path_exists_true _ _ _ Hdir).
      unfold read_file. by rewrite Hdir.
    - assert (Hs : nodes w !! global_filename cfg s ≠ Some Dir)
        by (apply Hbefore, elem_of_cons; by left).
      assert (Hrest : ∀ s', s' ∈ before → nodes w !! global_filename cfg s' ≠ Some Dir)
        by (intros s' Hs'; apply Hbefore, elem_of_cons; by right).
      unfold global_filename in Hs.
      destruct (nodes w !! bundle_filename (_global_cert_directory cfg)
                             GLOBAL_BUNDLE_PREFIX s) as [[c|]|] eqn:Hn; [|done|].
      + rewrite (os_path_exists_true _ _ _ Hn). unfold read_file. rewrite Hn.
        by apply IH.
      + rewrite (os_path_exists_false _ _ Hn). by apply IH. }
  by rewrite Hgen.
Qed.

Lemma read_global_directory_raises_witness :
  read_global_cert_bundle sample_config (["ca"] ++ "cert" :: ["key"])
    (mkWorld {[ "/etc/pki/global/pulp-global-repo.cert" := Dir ]} ∅ ∅ [] 0)
  = Raise (IOError (global_filename sample_config "cert")).
Proof.
  apply (read_global_directory_raises sample_config ["ca"] "cert" ["key"]
           (mkWorld {[ "/etc/pki/global/pulp-global-repo.cert" := Dir ]} ∅ ∅ [] 0)).
  - apply Forall_forall. apply (bool_decide_unpack _). vm_compute. exact I.
  - vm_compute. reflexivity.
Defined.
